(** * The chat route of SkillStrong: [app/api/chat/route.ts]

    A shallow embedding of the single-turn orchestrator: the keyword intent
    classifier, the default follow-ups, the [POST] handler with its guard,
    location-required and generic-error branches, and the [onFinal]
    enrichment callback (featured listings, next-steps normalisation,
    follow-up generation, payload emission).

    Strings are sequences of bytes (the UTF-8 form of the JavaScript text).
    Every keyword and the heading searched for by the regular expression are
    ASCII, and no byte of a multi-byte UTF-8 sequence is ASCII, so substring
    search on bytes finds what the source finds on UTF-16 code units. *)

From Stdlib Require Import String Ascii List Bool Arith Lia.
Import ListNotations.
Open Scope string_scope.

(** ** Text primitives of the JavaScript runtime *)

Module JS.

Definition nl : string := String (ascii_of_nat 10) EmptyString.

(** [prefixBy eqc p s]: [p] matches at the start of [s], characters being
    compared with [eqc]. *)
Fixpoint prefixBy (eqc : ascii -> ascii -> bool) (p s : string) : bool :=
  match p with
  | EmptyString => true
  | String a p' =>
      match s with
      | EmptyString => false
      | String b s' => eqc a b && prefixBy eqc p' s'
      end
  end.

(** [String.prototype.startsWith] *)
Definition startsWith (s p : string) : bool := prefixBy Ascii.eqb p s.

(** [String.prototype.includes]: [p] occurs somewhere in [s]. *)
Fixpoint includes (s p : string) : bool :=
  startsWith s p ||
  match s with
  | EmptyString => false
  | String _ s' => includes s' p
  end.

Definition isUpper (c : ascii) : bool :=
  (65 <=? nat_of_ascii c)%nat && (nat_of_ascii c <=? 90)%nat.

Definition isLower (c : ascii) : bool :=
  (97 <=? nat_of_ascii c)%nat && (nat_of_ascii c <=? 122)%nat.

Definition lowerChar (c : ascii) : ascii :=
  if isUpper c then ascii_of_nat (nat_of_ascii c + 32) else c.

Definition upperChar (c : ascii) : ascii :=
  if isLower c then ascii_of_nat (nat_of_ascii c - 32) else c.

(** [String.prototype.toLowerCase], on the letters A-Z; every other byte
    is left as it is. *)
Fixpoint toLowerCase (s : string) : string :=
  match s with
  | EmptyString => EmptyString
  | String c s' => String (lowerChar c) (toLowerCase s')
  end.

(** Character comparison of a regular expression with the [i] flag and
    without the [u] flag: both sides are canonicalised by upper-casing,
    and a character outside ASCII never canonicalises into ASCII. *)
Definition eqbIgnoreCase (a b : ascii) : bool :=
  Ascii.eqb (upperChar a) (upperChar b).

(** Truthiness of a string: the empty string is falsy. *)
Definition truthy (s : string) : bool :=
  match s with
  | EmptyString => false
  | String _ _ => true
  end.

(** Truthiness of a [string | null]. *)
Definition truthyOpt (o : option string) : bool :=
  match o with
  | None => false
  | Some s => truthy s
  end.

(** Interpolation of a [string | null] in a template literal. *)
Definition interpolate (o : option string) : string :=
  match o with
  | None => "null"
  | Some s => s
  end.

(** [Array.prototype.slice(b, e)] for non-negative indices. *)
Definition slice {A : Type} (b e : nat) (l : list A) : list A :=
  firstn (e - b) (skipn b l).

(** [Array.prototype.join] *)
Definition join (sep : string) (l : list string) : string :=
  String.concat sep l.

(** Number of positions of [s] at which [p] occurs. *)
Fixpoint countOccurrences (p s : string) : nat :=
  (if startsWith s p then 1 else 0) +
  match s with
  | EmptyString => 0
  | String _ s' => countOccurrences p s'
  end.

(** The non-empty suffixes of a pattern. *)
Fixpoint tails (p : string) : list string :=
  match p with
  | EmptyString => []
  | String _ p' => p :: tails p'
  end.

End JS.

(** ** Intent classification *)

Inductive Intent : Type := quiz | chat | explain.

Definition classifyIntent (userText : string) : Intent :=
  let text := JS.toLowerCase userText in
  if JS.includes text "quiz"
     || JS.includes text "assessment"
     || JS.includes text "which career"
     || JS.includes text "help me decide"
  then quiz
  else if JS.includes text "explain"
          || JS.includes text "difference between"
          || JS.includes text "what is the difference"
          || JS.includes text "how does"
  then explain
  else chat.

(** Helper to provide default followups on error *)
Definition defaultFollowups : list string :=
  JS.slice 0 3
    [ "Find local apprenticeships";
      "Explore training programs";
      "Compare typical salaries (BLS)" ].

(** ** Data model *)

Inductive Role : Type := system | user | assistant.

Record Message : Type := {
  id : string;
  role : Role;
  content : string
}.

Record FeaturedListing : Type := {
  title : string;
  org : string;
  location : string
}.

(** What [orchestratePreamble] resolves to. *)
Module PreambleResult.
Record t : Type := {
  messagesForLLM : list Message;
  lastUserRaw : string;
  effectiveLocation : option string;
  internalRAG : string;
  domainGuarded : bool
}.
End PreambleResult.

(** A thrown [Error]; the handler reads its [message]. *)
Record ErrorValue : Type := { message : string }.

(** An awaited call either resolves to a value or rejects. *)
Inductive Outcome (A : Type) : Type :=
| Returns (a : A)
| Throws (e : ErrorValue).
Arguments Returns {A} a.
Arguments Throws {A} e.

(** The body of a [NextResponse.json] answer. *)
Module Json.
Record body : Type := {
  answer : string;
  followups : list string
}.
End Json.

(** The object serialised on the side channel of the stream. *)
Record FinalPayload : Type := {
  finalAnswer : string;
  followups : list string
}.

(** What the handler does to the outside, in order. *)
Inductive Event : Type :=
| CallPreamble (messages : list Message) (location : option string)
| CallCompletion (messages : list Message)
| CallFeatured (query : string) (location : option string)
| CallFollowups (messages : list Message) (answer : string)
                (location : option string)
| LogIntent (intent : Intent)
| LogError (label : string) (e : ErrorValue)
| DataAppend (payload : FinalPayload)
| DataClose.

(** The [let] variables of [POST], assigned inside the [try] block and read
    by the [catch] block and by the [onFinal] closure. *)
Record Locals : Type := {
  messagesForLLM : list Message;
  lastUserRaw : string;
  effectiveLocation : option string;
  internalRAG : string;
  intent : Intent
}.

(** The imported collaborators, which are not part of this file of the
    repository: the system prompt constant, the preamble, the completion
    service (its stream is given as the list of tokens it delivers), the
    listing matcher and the follow-up generator. *)
Record Collaborators : Type := {
  COACH_SYSTEM : string;
  orchestratePreamble :
    list Message -> option string -> Outcome PreambleResult.t;
  completionsCreate : list Message -> Outcome (list string);
  findFeaturedMatching :
    string -> option string -> Outcome (list FeaturedListing);
  generateFollowups :
    list Message -> string -> option string -> Outcome (list string)
}.

(** ** A monad for the handler: local variables, event trace, exceptions *)

Record Run (A : Type) : Type := {
  trace : list Event;
  locals : Locals;
  outcome : Outcome A
}.
Arguments trace {A} r.
Arguments locals {A} r.
Arguments outcome {A} r.

Definition M (A : Type) : Type := Locals -> Run A.

Definition ret {A : Type} (a : A) : M A :=
  fun s => {| trace := []; locals := s; outcome := Returns a |}.

Definition bind {A B : Type} (m : M A) (f : A -> M B) : M B :=
  fun s =>
    let r := m s in
    match outcome r with
    | Returns a =>
        let r' := f a (locals r) in
        {| trace := trace r ++ trace r';
           locals := locals r';
           outcome := outcome r' |}
    | Throws e =>
        {| trace := trace r; locals := locals r; outcome := Throws e |}
    end.

(** [try { body } catch (e) { handler e }]: the handler runs on the
    variables as the body left them when it threw. *)
Definition tryCatch {A : Type} (body : M A) (handler : ErrorValue -> M A)
  : M A :=
  fun s =>
    let r := body s in
    match outcome r with
    | Returns a => r
    | Throws e =>
        let r' := handler e (locals r) in
        {| trace := trace r ++ trace r';
           locals := locals r';
           outcome := outcome r' |}
    end.

Definition emit (ev : Event) : M unit :=
  fun s => {| trace := [ev]; locals := s; outcome := Returns tt |}.

(** [await f(args)]: the call is recorded, then it resolves or rejects. *)
Definition await {A : Type} (ev : Event) (o : Outcome A) : M A :=
  fun s => {| trace := [ev]; locals := s; outcome := o |}.

Definition read {A : Type} (proj : Locals -> A) : M A :=
  fun s => {| trace := []; locals := s; outcome := Returns (proj s) |}.

Definition assign (upd : Locals -> Locals) : M unit :=
  fun s => {| trace := []; locals := upd s; outcome := Returns tt |}.

Declare Scope route_scope.
Delimit Scope route_scope with route.
Notation "'let*' x ':=' m 'in' k" := (bind m (fun x => k))
  (at level 10, x name, m at level 200, k at level 200) : route_scope.
Notation "m ;; k" := (bind m (fun _ => k))
  (at level 200, k at level 200) : route_scope.
Open Scope route_scope.

(** ** Fixed texts of the route *)

Definition GUARD_ANSWER : string :=
  "I focus on modern manufacturing careers. We can explore roles like CNC Machinist, Robotics Technician, Welding Programmer, Additive Manufacturing, Maintenance Tech, or Quality Control.".

Definition LOCATION_ANSWER : string :=
  "To find local results, please set your location using the button in the header.".

Definition APOLOGY : string := "Sorry, I couldn't process that.".

(** The canonical next-steps block appended by [onFinal]. *)
Definition NEXT_STEPS : string :=
  JS.nl ++ JS.nl ++ "**Next Steps**" ++ JS.nl ++
  "You can also search for more opportunities on your own:" ++ JS.nl ++
  "* [Search SkillStrong Programs](/programs/all)" ++ JS.nl ++
  "* [Search SkillStrong Jobs](/jobs/all)" ++ JS.nl ++
  "* [Search US Department of Education for programs](https://collegescorecard.ed.gov/)" ++ JS.nl ++
  "* [Search for jobs on Indeed.com](https://www.indeed.com/)".

(** ** The regular expression that strips an earlier next-steps section

    The source pattern is a blank line, the literal heading with escaped
    asterisks, then dot-star, under the flags [i] (ignore case) and [s]
    (the dot also matches a newline). *)

(** Its literal part: a blank line, then the heading with the colon inside
    the bold markers. *)
Definition NEXT_STEPS_RE : string := JS.nl ++ JS.nl ++ "**Next Steps:**".

(** Does the literal part match at the start of [s], ignoring case? *)
Definition matchesHere (s : string) : bool :=
  JS.prefixBy JS.eqbIgnoreCase NEXT_STEPS_RE s.

(** Index of the leftmost match. *)
Fixpoint regexSearch (s : string) : option nat :=
  if matchesHere s then Some 0
  else
    match s with
    | EmptyString => None
    | String _ s' => option_map S (regexSearch s')
    end.

(** [RegExp.prototype.test] *)
Definition regexTest (s : string) : bool :=
  match regexSearch s with
  | Some _ => true
  | None => false
  end.

(** [s.replace(re, '')]: the regex has no [g] flag, so only the leftmost
    match is replaced; with the [s] flag the trailing [.*] runs to the end of
    the text, so the match is everything from the heading on. *)
Definition stripNextSteps (s : string) : string :=
  match regexSearch s with
  | Some i => substring 0 i s
  | None => s
  end.

(** ** Post-completion enrichment: the [onFinal] callback *)

Definition featuredLine (f : FeaturedListing) : string :=
  "- **" ++ title f ++ "** — " ++ org f ++ " (" ++ location f ++ ")".

Definition featuredBlock (effectiveLocation : option string)
    (featured : list FeaturedListing) : string :=
  let locTxt :=
    if JS.truthyOpt effectiveLocation
    then " near " ++ JS.interpolate effectiveLocation
    else "" in
  let lines := JS.join JS.nl (map featuredLine featured) in
  JS.nl ++ JS.nl ++ "**Featured" ++ locTxt ++ ":**" ++ JS.nl ++ lines.

(** a. Find Featured Listings *)
Definition findFeatured (env : Collaborators) (completion : string)
  : M string :=
  tryCatch
    (let* lastUserRaw := read lastUserRaw in
     let* effectiveLocation := read effectiveLocation in
     let* featured := await (CallFeatured lastUserRaw effectiveLocation)
                   (findFeaturedMatching env lastUserRaw effectiveLocation) in
     if (0 <? List.length featured)%nat
     then ret (completion ++ featuredBlock effectiveLocation featured)
     else ret completion)
    (fun err =>
       emit (LogError "Error finding featured items:" err) ;;
       ret completion).

(** b. Add "Next Steps" *)
Definition addNextSteps (internalRAG answerWithFeatured : string) : string :=
  if JS.truthy internalRAG
  then stripNextSteps answerWithFeatured ++ NEXT_STEPS
  else answerWithFeatured.

Definition onFinal (env : Collaborators) (completion : string) : M unit :=
  let* answerWithFeatured := findFeatured env completion in
  let* internalRAG := read internalRAG in
  let finalAnswerWithSteps := addNextSteps internalRAG answerWithFeatured in
  let* messagesForLLM := read messagesForLLM in
  let finalMessages :=
    (messagesForLLM ++
     [ {| id := "final_answer"; role := assistant;
          content := finalAnswerWithSteps |} ])%list in
  let* effectiveLocation := read effectiveLocation in
  let* followups := await
                 (CallFollowups finalMessages finalAnswerWithSteps
                    effectiveLocation)
                 (generateFollowups env finalMessages finalAnswerWithSteps
                    effectiveLocation) in
  emit (DataAppend {| finalAnswer := finalAnswerWithSteps;
                      followups := followups |}) ;;
  emit DataClose.

(** ** The handler *)

Inductive Response : Type :=
| NextResponse_json (body : Json.body) (init : option nat)
| StreamingTextResponse (stream : list string) (data : Run unit).

(** HTTP status of a response: 200 unless the init object sets one. *)
Definition status (r : Response) : nat :=
  match r with
  | NextResponse_json _ (Some st) => st
  | NextResponse_json _ None => 200
  | StreamingTextResponse _ _ => 200
  end.

Definition initialLocals : Locals :=
  {| messagesForLLM := [];
     lastUserRaw := "";
     effectiveLocation := None;
     internalRAG := "";
     intent := chat |}.

Definition set_messagesForLLM (v : list Message) (s : Locals) : Locals :=
  {| messagesForLLM := v;
     lastUserRaw := lastUserRaw s;
     effectiveLocation := effectiveLocation s;
     internalRAG := internalRAG s;
     intent := intent s |}.

Definition set_lastUserRaw (v : string) (s : Locals) : Locals :=
  {| messagesForLLM := messagesForLLM s;
     lastUserRaw := v;
     effectiveLocation := effectiveLocation s;
     internalRAG := internalRAG s;
     intent := intent s |}.

Definition set_effectiveLocation (v : option string) (s : Locals) : Locals :=
  {| messagesForLLM := messagesForLLM s;
     lastUserRaw := lastUserRaw s;
     effectiveLocation := v;
     internalRAG := internalRAG s;
     intent := intent s |}.

Definition set_internalRAG (v : string) (s : Locals) : Locals :=
  {| messagesForLLM := messagesForLLM s;
     lastUserRaw := lastUserRaw s;
     effectiveLocation := effectiveLocation s;
     internalRAG := v;
     intent := intent s |}.

Definition set_intent (v : Intent) (s : Locals) : Locals :=
  {| messagesForLLM := messagesForLLM s;
     lastUserRaw := lastUserRaw s;
     effectiveLocation := effectiveLocation s;
     internalRAG := internalRAG s;
     intent := v |}.

(** 1.5 Classify intent (based on last user message) *)
Definition classifyStep (classify : string -> Intent) : M unit :=
  let* lastUserRaw := read lastUserRaw in
  if JS.truthy lastUserRaw
  then assign (set_intent (classify lastUserRaw)) ;;
       let* intent := read intent in
       emit (LogIntent intent)
  else ret tt.

(** 3. Prepare the final LLM call *)
Definition systemMessages (env : Collaborators)
    (effectiveLocation : option string) : list Message :=
  ([ {| id := "system_prompt"; role := system;
        content := COACH_SYSTEM env |} ] ++
   (if JS.truthyOpt effectiveLocation
    then [ {| id := "system_location"; role := system;
              content := "User location: " ++
                         JS.interpolate effectiveLocation |} ]
    else []))%list.

(** The messages handed to the completion service. *)
Definition composeMessages (env : Collaborators)
    (effectiveLocation : option string) (messagesForLLM : list Message)
  : list Message :=
  (systemMessages env effectiveLocation ++ messagesForLLM)%list.

(** The [try] block of [POST]; the classifier is a parameter so that runs
    under different classifiers can be compared. *)
Definition tryBlock (classify : string -> Intent) (env : Collaborators)
    (messages : list Message) (location : option string) : M Response :=
  let* preambleResult :=
    await (CallPreamble messages location)
      (orchestratePreamble env messages location) in
  assign (set_messagesForLLM (PreambleResult.messagesForLLM preambleResult)) ;;
  assign (set_lastUserRaw (PreambleResult.lastUserRaw preambleResult)) ;;
  assign (set_effectiveLocation
            (PreambleResult.effectiveLocation preambleResult)) ;;
  assign (set_internalRAG (PreambleResult.internalRAG preambleResult)) ;;
  classifyStep classify ;;
  if PreambleResult.domainGuarded preambleResult
  then ret (NextResponse_json
              {| Json.answer := GUARD_ANSWER;
                 Json.followups := defaultFollowups |} None)
  else
    let* effectiveLocation := read effectiveLocation in
    let* messagesForLLM := read messagesForLLM in
    let* responseStream :=
      await (CallCompletion
               (composeMessages env effectiveLocation messagesForLLM))
        (completionsCreate env
           (composeMessages env effectiveLocation messagesForLLM)) in
    let* captured := read (fun s => s) in
    ret (StreamingTextResponse responseStream
           (onFinal env (String.concat "" responseStream) captured)).

(** The [catch] block of [POST]. *)
Definition catchBlock (env : Collaborators) (e : ErrorValue) : M Response :=
  if (message e =? "LOCATION_REQUIRED")%string
  then ret (NextResponse_json
              {| Json.answer := LOCATION_ANSWER;
                 Json.followups := [] |} None)
  else
    emit (LogError "Error in /api/chat route:" e) ;;
    let* messagesForLLM := read messagesForLLM in
    let* effectiveLocation := read effectiveLocation in
    let* errorFollowups :=
      await (CallFollowups messagesForLLM APOLOGY effectiveLocation)
        (generateFollowups env messagesForLLM APOLOGY effectiveLocation) in
    ret (NextResponse_json
           {| Json.answer := APOLOGY;
              Json.followups :=
                if (0 <? List.length errorFollowups)%nat
                then errorFollowups
                else defaultFollowups |}
           (Some 500)).

Definition POSTwith (classify : string -> Intent) (env : Collaborators)
    (messages : list Message) (location : option string) : Run Response :=
  tryCatch (tryBlock classify env messages location) (catchBlock env)
    initialLocals.

Definition POST (env : Collaborators) (messages : list Message)
    (location : option string) : Run Response :=
  POSTwith classifyIntent env messages location.

(** Payloads put on the side channel by a run of [onFinal]. *)
Fixpoint dataAppended (t : list Event) : list FinalPayload :=
  match t with
  | [] => []
  | DataAppend p :: t' => p :: dataAppended t'
  | _ :: t' => dataAppended t'
  end.

(** Every follow-up list a run of the handler hands to the client: the one
    of the JSON body, or the ones of the side-channel payloads. *)
Definition emittedFollowups (r : Run Response) : list (list string) :=
  match outcome r with
  | Returns (NextResponse_json b _) => [Json.followups b]
  | Returns (StreamingTextResponse _ d) =>
      map followups (dataAppended (trace d))
  | Throws _ => []
  end.

Definition isLogIntent (ev : Event) : bool :=
  match ev with
  | LogIntent _ => true
  | _ => false
  end.

(** A trace without its diagnostic intent entries. *)
Definition withoutIntentLog (t : list Event) : list Event :=
  filter (fun ev => negb (isLogIntent ev)) t.

(** What a client and the collaborators can see of a response. *)
Inductive Observation : Type :=
| SeenJson (body : Json.body) (httpStatus : nat)
| SeenStream (httpStatus : nat) (stream : list string)
             (events : list Event) (result : Outcome unit).

Definition observe (r : Response) : Observation :=
  match r with
  | NextResponse_json b _ => SeenJson b (status r)
  | StreamingTextResponse tokens d =>
      SeenStream (status r) tokens (trace d) (outcome d)
  end.

Definition observeOutcome (o : Outcome Response) : Outcome Observation :=
  match o with
  | Returns r => Returns (observe r)
  | Throws e => Throws e
  end.

(** The value of the variable [answerWithFeatured] when step a is over. *)
Definition answerWithFeatured (env : Collaborators) (completion : string)
    (s : Locals) : string :=
  match outcome (findFeatured env completion s) with
  | Returns a => a
  | Throws _ => completion
  end.

(** The value of [finalAnswerWithSteps] when step b is over. *)
Definition finalAnswerWithSteps (env : Collaborators) (completion : string)
    (s : Locals) : string :=
  addNextSteps (internalRAG s) (answerWithFeatured env completion s).

(** [finalMessages]: the history plus the final answer as assistant turn. *)
Definition finalMessages (env : Collaborators) (completion : string)
    (s : Locals) : list Message :=
  (messagesForLLM s ++
   [ {| id := "final_answer"; role := assistant;
        content := finalAnswerWithSteps env completion s |} ])%list.

(** The variables of [POST] once the preamble has resolved to [pre] and the
    intent step has run. *)
Definition afterPreamble (classify : string -> Intent)
    (pre : PreambleResult.t) : Locals :=
  {| messagesForLLM := PreambleResult.messagesForLLM pre;
     lastUserRaw := PreambleResult.lastUserRaw pre;
     effectiveLocation := PreambleResult.effectiveLocation pre;
     internalRAG := PreambleResult.internalRAG pre;
     intent :=
       if JS.truthy (PreambleResult.lastUserRaw pre)
       then classify (PreambleResult.lastUserRaw pre)
       else chat |}.

(** The diagnostic entry of the intent step, if any. *)
Definition intentLog (classify : string -> Intent)
    (pre : PreambleResult.t) : list Event :=
  if JS.truthy (PreambleResult.lastUserRaw pre)
  then [LogIntent (classify (PreambleResult.lastUserRaw pre))]
  else [].

(** A run with the events [t] in front of it. *)
Definition after {A : Type} (t : list Event) (r : Run A) : Run A :=
  {| trace := (t ++ trace r)%list;
     locals := locals r;
     outcome := outcome r |}.

Definition guardResponse : Response :=
  NextResponse_json
    {| Json.answer := GUARD_ANSWER; Json.followups := defaultFollowups |}
    None.

Definition locationResponse : Response :=
  NextResponse_json
    {| Json.answer := LOCATION_ANSWER; Json.followups := [] |} None.

Definition apologyResponse (errorFollowups : list string) : Response :=
  NextResponse_json
    {| Json.answer := APOLOGY;
       Json.followups :=
         if (0 <? List.length errorFollowups)%nat
         then errorFollowups
         else defaultFollowups |}
    (Some 500).

(** The message lists the completion service was called with. *)
Fixpoint completionCalls (t : list Event) : list (list Message) :=
  match t with
  | [] => []
  | CallCompletion ms :: t' => ms :: completionCalls t'
  | _ :: t' => completionCalls t'
  end.

(** [text], lower-cased, contains [phrase]. *)
Definition mentions (text phrase : string) : Prop :=
  JS.includes (JS.toLowerCase text) phrase = true.

(** Two states of the variables that differ at most in [intent]. *)
Definition sameButIntent (s1 s2 : Locals) : Prop :=
  messagesForLLM s1 = messagesForLLM s2 /\
  lastUserRaw s1 = lastUserRaw s2 /\
  effectiveLocation s1 = effectiveLocation s2 /\
  internalRAG s1 = internalRAG s2.

(** What can be seen of a whole run: its events other than the intent log
    entry, and the observation of its response. *)
Definition observeRun (r : Run Response)
  : list Event * Outcome Observation :=
  (withoutIntentLog (trace r), observeOutcome (outcome r)).

(** ** The earlier listing of the route

    The file holds a second listing of [route.ts], from before the intent
    step was added: the same [try] block without step 1.5, and the same
    [catch] block and [onFinal] callback. *)

Definition tryBlockLegacy (env : Collaborators) (messages : list Message)
    (location : option string) : M Response :=
  let* preambleResult :=
    await (CallPreamble messages location)
      (orchestratePreamble env messages location) in
  assign (set_messagesForLLM (PreambleResult.messagesForLLM preambleResult)) ;;
  assign (set_lastUserRaw (PreambleResult.lastUserRaw preambleResult)) ;;
  assign (set_effectiveLocation
            (PreambleResult.effectiveLocation preambleResult)) ;;
  assign (set_internalRAG (PreambleResult.internalRAG preambleResult)) ;;
  if PreambleResult.domainGuarded preambleResult
  then ret (NextResponse_json
              {| Json.answer := GUARD_ANSWER;
                 Json.followups := defaultFollowups |} None)
  else
    let* effectiveLocation := read effectiveLocation in
    let* messagesForLLM := read messagesForLLM in
    let* responseStream :=
      await (CallCompletion
               (composeMessages env effectiveLocation messagesForLLM))
        (completionsCreate env
           (composeMessages env effectiveLocation messagesForLLM)) in
    let* captured := read (fun s => s) in
    ret (StreamingTextResponse responseStream
           (onFinal env (String.concat "" responseStream) captured)).

Definition POSTlegacy (env : Collaborators) (messages : list Message)
    (location : option string) : Run Response :=
  tryCatch (tryBlockLegacy env messages location) (catchBlock env)
    initialLocals.

(** ** Reading a trace *)

(** The arguments the listing matcher was called with. *)
Fixpoint featuredCalls (t : list Event) : list (string * option string) :=
  match t with
  | [] => []
  | CallFeatured q l :: t' => (q, l) :: featuredCalls t'
  | _ :: t' => featuredCalls t'
  end.

(** The arguments the follow-up generator was called with. *)
Fixpoint followupCalls (t : list Event)
  : list (list Message * string * option string) :=
  match t with
  | [] => []
  | CallFollowups ms a l :: t' => (ms, a, l) :: followupCalls t'
  | _ :: t' => followupCalls t'
  end.


(** The events on the side channel of the stream. *)
Definition isDataEvent (ev : Event) : bool :=
  match ev with
  | DataAppend _ | DataClose => true
  | _ => false
  end.

Definition dataEvents (t : list Event) : list Event := filter isDataEvent t.

(** ** Sample collaborators, used to run the model on concrete requests *)

Module Sample.

Definition question : Message :=
  {| id := "m1"; role := user; content := "What does a CNC machinist do?" |}.

Definition listing : FeaturedListing :=
  {| title := "CNC Operator"; org := "Acme Tooling"; location := "Austin, TX" |}.

Definition preamble (rag : string) (guarded : bool) : PreambleResult.t :=
  {| PreambleResult.messagesForLLM := [question];
     PreambleResult.lastUserRaw := content question;
     PreambleResult.effectiveLocation := Some "Austin, TX";
     PreambleResult.internalRAG := rag;
     PreambleResult.domainGuarded := guarded |}.

Definition boom : ErrorValue := {| message := "upstream unavailable" |}.

(** No guard, internal retrieval used, one listing, two follow-ups; the
    model's tokens are a parameter. *)
Definition env (tokens : list string) : Collaborators :=
  {| COACH_SYSTEM := "You are a manufacturing career coach.";
     orchestratePreamble := fun _ _ => Returns (preamble "kb" false);
     completionsCreate := fun _ => Returns tokens;
     findFeaturedMatching := fun _ _ => Returns [listing];
     generateFollowups := fun _ _ _ =>
       Returns ["Find CNC programs near me"; "What does it pay?"] |}.

Definition guardedEnv : Collaborators :=
  {| COACH_SYSTEM := "You are a manufacturing career coach.";
     orchestratePreamble := fun _ _ => Returns (preamble "" true);
     completionsCreate := fun _ => Returns ["unused"];
     findFeaturedMatching := fun _ _ => Returns [];
     generateFollowups := fun _ _ _ => Returns [] |}.

(** The preamble rejects with [e]; the follow-up generator answers [fs]. *)
Definition failingEnv (e : ErrorValue) (fs : Outcome (list string))
  : Collaborators :=
  {| COACH_SYSTEM := "You are a manufacturing career coach.";
     orchestratePreamble := fun _ _ => Throws e;
     completionsCreate := fun _ => Returns ["unused"];
     findFeaturedMatching := fun _ _ => Returns [];
     generateFollowups := fun _ _ _ => fs |}.

(** As [env], with a listing matcher that rejects. *)
Definition noListingsEnv (tokens : list string) : Collaborators :=
  {| COACH_SYSTEM := "You are a manufacturing career coach.";
     orchestratePreamble := fun _ _ => Returns (preamble "kb" false);
     completionsCreate := fun _ => Returns tokens;
     findFeaturedMatching := fun _ _ => Throws boom;
     generateFollowups := fun _ _ _ =>
       Returns ["Find CNC programs near me"; "What does it pay?"] |}.

Definition locals (rag : string) : Locals :=
  {| messagesForLLM := [question];
     lastUserRaw := content question;
     effectiveLocation := Some "Austin, TX";
     internalRAG := rag;
     intent := chat |}.

(** A completion that already ends in the canonical block. *)
Definition imitated : string := "Try welding." ++ NEXT_STEPS.

(** A completion with a next-steps section of its own, under the heading
    the regular expression looks for. *)
Definition withHeading : string :=
  "Plan." ++ JS.nl ++ JS.nl ++ "**Next Steps:**" ++ JS.nl ++ "1. Apply.".

(** The preamble resolves, the completion service rejects with [e]. *)
Definition completionFailingEnv (e : ErrorValue) : Collaborators :=
  {| COACH_SYSTEM := "You are a manufacturing career coach.";
     orchestratePreamble := fun _ _ => Returns (preamble "kb" false);
     completionsCreate := fun _ => Throws e;
     findFeaturedMatching := fun _ _ => Returns [];
     generateFollowups := fun _ _ _ => Returns ["Try again"] |}.

End Sample.

(** * Properties *)

(** ** Strings *)

Section PrefixBy.

Variable eqc : ascii -> ascii -> bool.

Lemma prefixBy_length (p s : string) :
  JS.prefixBy eqc p s = true -> String.length p <= String.length s.
Proof.
  revert s; induction p as [|a p IH]; intros s H; simpl in *; [lia|].
  destruct s as [|b s]; [discriminate|].
  apply andb_true_iff in H as [_ H]. apply IH in H. simpl; lia.
Qed.

Lemma prefixBy_app_long (p s x : string) :
  String.length p <= String.length s ->
  JS.prefixBy eqc p (s ++ x) = JS.prefixBy eqc p s.
Proof.
  revert s; induction p as [|a p IH]; intros s H; simpl in *; [reflexivity|].
  destruct s as [|b s]; simpl in *; [lia|].
  rewrite IH by lia. reflexivity.
Qed.

Lemma prefixBy_app_true (p s x : string) :
  JS.prefixBy eqc p s = true -> JS.prefixBy eqc p (s ++ x) = true.
Proof.
  intros H. rewrite prefixBy_app_long; [exact H|].
  now apply prefixBy_length.
Qed.

(** A match of [p] at the start of [t ++ b] lies within [t], or a non-empty
    suffix of [p] matches at the start of [b]. *)
Lemma prefixBy_app_inv (p t b : string) :
  JS.prefixBy eqc p (t ++ b) = true ->
  JS.prefixBy eqc p t = true \/
  existsb (fun r => JS.prefixBy eqc r b) (JS.tails p) = true.
Proof.
  revert p; induction t as [|c t IH]; intros p H.
  - destruct p as [|a p]; [now left|]. right.
    simpl in H. simpl JS.tails. simpl existsb.
    apply orb_true_iff. left. exact H.
  - destruct p as [|a p]; [now left|].
    simpl in H. apply andb_true_iff in H as [Hc H].
    destruct (IH _ H) as [Ht | Hr].
    + left. simpl. now rewrite Hc, Ht.
    + right. simpl JS.tails. simpl existsb. rewrite Hr. apply orb_true_r.
Qed.

End PrefixBy.

Lemma append_nil_r (s : string) : s ++ "" = s.
Proof. induction s as [|c s IH]; simpl; [reflexivity | now rewrite IH]. Qed.

Lemma append_assoc (a b c : string) : (a ++ b) ++ c = a ++ (b ++ c).
Proof. induction a as [|x a IH]; simpl; [reflexivity | now rewrite IH]. Qed.

Lemma length_append (a b : string) :
  String.length (a ++ b) = String.length a + String.length b.
Proof. induction a as [|x a IH]; simpl; [reflexivity | now rewrite IH]. Qed.

Lemma includes_startsWith (s p : string) :
  JS.startsWith s p = true -> JS.includes s p = true.
Proof. intros H. destruct s; simpl; rewrite H; reflexivity. Qed.

Lemma includes_app_l (a b p : string) :
  JS.includes a p = true -> JS.includes (a ++ b) p = true.
Proof.
  induction a as [|c a IH]; simpl; intros H.
  - rewrite orb_false_r in H.
    apply includes_startsWith.
    exact (prefixBy_app_true _ p "" b H).
  - apply orb_true_iff in H as [H | H].
    + apply orb_true_iff; left.
      exact (prefixBy_app_true _ p (String c a) b H).
    + apply orb_true_iff; right. now apply IH.
Qed.

Lemma countOccurrences_none (p s : string) :
  JS.includes s p = false -> JS.countOccurrences p s = 0.
Proof.
  induction s as [|c s IH]; simpl; intros H.
  - rewrite orb_false_r in H. now rewrite H.
  - apply orb_false_iff in H as [H1 H2]. rewrite H1, IH by exact H2.
    reflexivity.
Qed.

(** Occurrences of [p] in [a ++ b] when no occurrence straddles the seam:
    no non-empty proper suffix of [p] starts [b]. *)
Lemma countOccurrences_app (p a b : string) :
  p <> "" ->
  existsb (fun r => JS.prefixBy Ascii.eqb r b) (tl (JS.tails p)) = false ->
  JS.countOccurrences p (a ++ b) =
  JS.countOccurrences p a + JS.countOccurrences p b.
Proof.
  intros Hp Hseam. induction a as [|c a IH].
  - simpl. destruct p as [|x p]; [congruence|]. reflexivity.
  - change (String c a ++ b) with (String c (a ++ b)).
    cbn [JS.countOccurrences]. rewrite IH.
    assert (E : JS.startsWith (String c (a ++ b)) p
                = JS.startsWith (String c a) p).
    { unfold JS.startsWith.
      destruct (JS.prefixBy Ascii.eqb p (String c a)) eqn:E1.
      - exact (prefixBy_app_true _ p (String c a) b E1).
      - destruct (JS.prefixBy Ascii.eqb p (String c (a ++ b))) eqn:E2;
          [|reflexivity].
        destruct p as [|x p]; [discriminate|].
        simpl in E1, E2. apply andb_true_iff in E2 as [Hx E2].
        rewrite Hx in E1. simpl in E1.
        destruct (prefixBy_app_inv _ p a b E2) as [H | H].
        + congruence.
        + simpl in Hseam. congruence. }
    rewrite E. lia.
Qed.

(** ** The next-steps regular expression *)

Arguments matchesHere : simpl never.

Lemma regexSearch_eq (s : string) :
  regexSearch s =
  if matchesHere s then Some 0
  else match s with
       | EmptyString => None
       | String _ s' => option_map S (regexSearch s')
       end.
Proof. destruct s; reflexivity. Qed.

Lemma regexTest_eq (s : string) :
  regexTest s =
  matchesHere s ||
  match s with
  | EmptyString => false
  | String _ s' => regexTest s'
  end.
Proof.
  unfold regexTest. rewrite regexSearch_eq.
  destruct (matchesHere s); [reflexivity|].
  destruct s as [|c s]; [reflexivity|].
  simpl. destruct (regexSearch s); reflexivity.
Qed.

(** Stripping, read character by character: the text is copied up to the
    first position where the heading matches, and cut there. *)
Lemma stripNextSteps_eq (s : string) :
  stripNextSteps s =
  if matchesHere s then ""
  else match s with
       | EmptyString => ""
       | String c s' => String c (stripNextSteps s')
       end.
Proof.
  unfold stripNextSteps. rewrite regexSearch_eq.
  destruct (matchesHere s).
  - destruct s; reflexivity.
  - destruct s as [|c s]; [reflexivity|].
    destruct (regexSearch s); reflexivity.
Qed.

Lemma matchesHere_empty : matchesHere "" = false.
Proof. reflexivity. Qed.

Lemma matchesHere_app (s x : string) :
  matchesHere s = true -> matchesHere (s ++ x) = true.
Proof. apply prefixBy_app_true. Qed.

Lemma regexTest_length (s : string) :
  regexTest s = true -> String.length NEXT_STEPS_RE <= String.length s.
Proof.
  induction s as [|c s IH]; rewrite regexTest_eq; intros H.
  - rewrite matchesHere_empty in H. discriminate.
  - apply orb_true_iff in H as [H | H].
    + exact (prefixBy_length _ _ _ H).
    + apply IH in H. simpl String.length in *. lia.
Qed.

(** What is stripped is a tail of the text. *)
Lemma stripNextSteps_prefix (s : string) :
  exists rest, s = stripNextSteps s ++ rest.
Proof.
  induction s as [|c s [rest IH]]; rewrite stripNextSteps_eq.
  - exists "". reflexivity.
  - destruct (matchesHere (String c s)).
    + exists (String c s). reflexivity.
    + exists rest. simpl. now rewrite <- IH.
Qed.

(** What is kept contains no heading any more. *)
Lemma regexTest_stripNextSteps (s : string) :
  regexTest (stripNextSteps s) = false.
Proof.
  induction s as [|c s IH]; rewrite stripNextSteps_eq.
  - reflexivity.
  - destruct (matchesHere (String c s)) eqn:E; [reflexivity|].
    rewrite regexTest_eq, IH, orb_false_r.
    destruct (matchesHere (String c (stripNextSteps s))) eqn:E'; [|reflexivity].
    destruct (stripNextSteps_prefix s) as [rest Hrest].
    apply (matchesHere_app _ rest) in E'. simpl in E'.
    rewrite <- Hrest in E'. congruence.
Qed.

(** When the heading occurs in [s], text appended to [s] is cut with it. *)
Lemma stripNextSteps_app (s x : string) :
  regexTest s = true -> stripNextSteps (s ++ x) = stripNextSteps s.
Proof.
  induction s as [|c s IH]; intros H.
  - discriminate.
  - rewrite regexTest_eq in H.
    rewrite (stripNextSteps_eq (String c s)), (stripNextSteps_eq (String c s ++ x)).
    destruct (matchesHere (String c s)) eqn:E.
    + now rewrite (matchesHere_app _ x E).
    + simpl in H.
      assert (L : String.length NEXT_STEPS_RE <= String.length (String c s)).
      { apply regexTest_length in H. simpl String.length in *. lia. }
      unfold matchesHere in *. rewrite (prefixBy_app_long _ _ _ x L), E.
      simpl. now rewrite IH.
Qed.

(** Appending the canonical block creates no match of the heading. *)
Lemma regexTest_append_NEXT_STEPS (a : string) :
  regexTest a = false -> regexTest (a ++ NEXT_STEPS) = false.
Proof.
  induction a as [|c a IH]; intros H.
  - vm_compute. reflexivity.
  - rewrite regexTest_eq in H. apply orb_false_iff in H as [H1 H2].
    change (String c a ++ NEXT_STEPS) with (String c (a ++ NEXT_STEPS)).
    rewrite regexTest_eq, (IH H2), orb_false_r.
    destruct (matchesHere (String c (a ++ NEXT_STEPS))) eqn:E; [|reflexivity].
    destruct (prefixBy_app_inv _ NEXT_STEPS_RE (String c a) NEXT_STEPS E)
      as [F | F].
    + unfold matchesHere in H1. congruence.
    + vm_compute in F. discriminate.
Qed.

(** An exact occurrence of the heading is a match of the expression. *)
Lemma eqb_eqbIgnoreCase (a b : ascii) :
  Ascii.eqb a b = true -> JS.eqbIgnoreCase a b = true.
Proof.
  intros H. apply Ascii.eqb_eq in H. subst. unfold JS.eqbIgnoreCase.
  apply Ascii.eqb_refl.
Qed.

Lemma prefixBy_eqb_ignoreCase (p s : string) :
  JS.prefixBy Ascii.eqb p s = true -> JS.prefixBy JS.eqbIgnoreCase p s = true.
Proof.
  revert s; induction p as [|a p IH]; intros s H; [reflexivity|].
  destruct s as [|b s]; [discriminate|].
  simpl in *. apply andb_true_iff in H as [H1 H2].
  now rewrite (eqb_eqbIgnoreCase _ _ H1), (IH _ H2).
Qed.

Lemma includes_regexTest (s : string) :
  JS.includes s NEXT_STEPS_RE = true -> regexTest s = true.
Proof.
  induction s as [|c s IH]; intros H.
  - vm_compute in H. discriminate.
  - rewrite regexTest_eq. cbn [JS.includes] in H.
    apply orb_true_iff in H as [H | H].
    + apply prefixBy_eqb_ignoreCase in H. unfold matchesHere. now rewrite H.
    + rewrite (IH H). apply orb_true_r.
Qed.

(** ** Runs of the enrichment callback *)

Lemma findFeatured_run (env : Collaborators) (completion : string)
    (s : Locals) :
  findFeatured env completion s =
  {| trace :=
       CallFeatured (lastUserRaw s) (effectiveLocation s) ::
       match findFeaturedMatching env (lastUserRaw s) (effectiveLocation s)
       with
       | Returns _ => []
       | Throws e => [LogError "Error finding featured items:" e]
       end;
     locals := s;
     outcome := Returns (answerWithFeatured env completion s) |}.
Proof.
  unfold answerWithFeatured, findFeatured, tryCatch, bind, await, read, emit,
    ret.
  cbn [trace locals outcome app].
  destruct (findFeaturedMatching env (lastUserRaw s) (effectiveLocation s))
    as [featured | e]; cbn [trace locals outcome app].
  - destruct (0 <? length featured)%nat; reflexivity.
  - reflexivity.
Qed.

(** The listing step never rejects, whatever the matcher does. *)
Lemma answerWithFeatured_cases (env : Collaborators) (completion : string)
    (s : Locals) :
  answerWithFeatured env completion s =
  match findFeaturedMatching env (lastUserRaw s) (effectiveLocation s) with
  | Returns featured =>
      if (0 <? length featured)%nat
      then completion ++ featuredBlock (effectiveLocation s) featured
      else completion
  | Throws _ => completion
  end.
Proof.
  unfold answerWithFeatured, findFeatured, tryCatch, bind, await, read, emit,
    ret.
  cbn [trace locals outcome app].
  destruct (findFeaturedMatching env (lastUserRaw s) (effectiveLocation s))
    as [featured | e]; cbn [trace locals outcome app].
  - destruct (0 <? length featured)%nat; reflexivity.
  - reflexivity.
Qed.

Lemma answerWithFeatured_extends (env : Collaborators) (completion : string)
    (s : Locals) :
  exists block, answerWithFeatured env completion s = completion ++ block.
Proof.
  rewrite answerWithFeatured_cases.
  destruct (findFeaturedMatching env (lastUserRaw s) (effectiveLocation s))
    as [featured | e].
  - destruct (0 <? length featured)%nat.
    + eexists; reflexivity.
    + exists "". now rewrite append_nil_r.
  - exists "". now rewrite append_nil_r.
Qed.

Lemma onFinal_run (env : Collaborators) (completion : string) (s : Locals) :
  onFinal env completion s =
  {| trace :=
       (trace (findFeatured env completion s) ++
        CallFollowups (finalMessages env completion s)
          (finalAnswerWithSteps env completion s) (effectiveLocation s) ::
        match generateFollowups env (finalMessages env completion s)
                (finalAnswerWithSteps env completion s) (effectiveLocation s)
        with
        | Returns fs =>
            [ DataAppend
                {| finalAnswer := finalAnswerWithSteps env completion s;
                   followups := fs |};
              DataClose ]
        | Throws _ => []
        end)%list;
     locals := s;
     outcome :=
       match generateFollowups env (finalMessages env completion s)
               (finalAnswerWithSteps env completion s) (effectiveLocation s)
       with
       | Returns _ => Returns tt
       | Throws e => Throws e
       end |}.
Proof.
  unfold onFinal, bind at 1. rewrite findFeatured_run.
  cbn [trace locals outcome].
  unfold bind, await, read, emit, ret. cbn [trace locals outcome app].
  fold (finalAnswerWithSteps env completion s).
  fold (finalMessages env completion s).
  destruct (generateFollowups env (finalMessages env completion s)
              (finalAnswerWithSteps env completion s) (effectiveLocation s));
    reflexivity.
Qed.

(** The side channel receives at most one payload: the final answer with
    the generator's follow-ups, when the generator resolves. *)
Lemma dataAppended_onFinal (env : Collaborators) (completion : string)
    (s : Locals) :
  dataAppended (trace (onFinal env completion s)) =
  match generateFollowups env (finalMessages env completion s)
          (finalAnswerWithSteps env completion s) (effectiveLocation s)
  with
  | Returns fs =>
      [ {| finalAnswer := finalAnswerWithSteps env completion s;
           followups := fs |} ]
  | Throws _ => []
  end.
Proof.
  rewrite onFinal_run, findFeatured_run. cbn [trace].
  destruct (findFeaturedMatching env (lastUserRaw s) (effectiveLocation s));
    destruct (generateFollowups env (finalMessages env completion s)
                (finalAnswerWithSteps env completion s) (effectiveLocation s));
    reflexivity.
Qed.

(** ** Laws of the handler monad *)

Lemma after_nil {A : Type} (r : Run A) : after [] r = r.
Proof. destruct r; reflexivity. Qed.

Lemma after_after {A : Type} (t u : list Event) (r : Run A) :
  after t (after u r) = after (t ++ u) r.
Proof. unfold after; cbn [trace locals outcome]. now rewrite app_assoc. Qed.

Lemma bind_run {A B : Type} (m : M A) (f : A -> M B) (s : Locals) :
  bind m f s =
  match outcome (m s) with
  | Returns a => after (trace (m s)) (f a (locals (m s)))
  | Throws e =>
      {| trace := trace (m s); locals := locals (m s); outcome := Throws e |}
  end.
Proof. reflexivity. Qed.

Lemma bind_await {A B : Type} (ev : Event) (o : Outcome A) (f : A -> M B)
    (s : Locals) :
  bind (await ev o) f s =
  match o with
  | Returns a => after [ev] (f a s)
  | Throws e => {| trace := [ev]; locals := s; outcome := Throws e |}
  end.
Proof. rewrite bind_run. destruct o; reflexivity. Qed.

Lemma bind_assign {B : Type} (upd : Locals -> Locals) (f : unit -> M B)
    (s : Locals) :
  bind (assign upd) f s = f tt (upd s).
Proof. rewrite bind_run. cbn [assign trace locals outcome]. apply after_nil. Qed.

Lemma bind_read {A B : Type} (proj : Locals -> A) (f : A -> M B)
    (s : Locals) :
  bind (read proj) f s = f (proj s) s.
Proof. rewrite bind_run. cbn [read trace locals outcome]. apply after_nil. Qed.

Lemma bind_emit {B : Type} (ev : Event) (f : unit -> M B) (s : Locals) :
  bind (emit ev) f s = after [ev] (f tt s).
Proof. rewrite bind_run. reflexivity. Qed.

Lemma tryCatch_run {A : Type} (body : M A) (handler : ErrorValue -> M A)
    (s : Locals) :
  tryCatch body handler s =
  match outcome (body s) with
  | Returns _ => body s
  | Throws e => after (trace (body s)) (handler e (locals (body s)))
  end.
Proof. reflexivity. Qed.

(** Computes the record updates, projections and trace concatenations of a
    run without touching the strings. *)
Ltac norm_run :=
  cbn [set_messagesForLLM set_lastUserRaw set_effectiveLocation
       set_internalRAG set_intent initialLocals messagesForLLM lastUserRaw
       effectiveLocation internalRAG intent trace locals outcome after app
       ret].

(** ** Runs of the handler *)

Lemma catchBlock_run (env : Collaborators) (e : ErrorValue) (s : Locals) :
  catchBlock env e s =
  if (message e =? "LOCATION_REQUIRED")%string
  then {| trace := []; locals := s; outcome := Returns locationResponse |}
  else
    {| trace :=
         [ LogError "Error in /api/chat route:" e;
           CallFollowups (messagesForLLM s) APOLOGY (effectiveLocation s) ];
       locals := s;
       outcome :=
         match generateFollowups env (messagesForLLM s) APOLOGY
                 (effectiveLocation s)
         with
         | Returns fs => Returns (apologyResponse fs)
         | Throws e' => Throws e'
         end |}.
Proof.
  unfold catchBlock.
  destruct (message e =? "LOCATION_REQUIRED")%string; [reflexivity|].
  unfold bind, await, read, emit, ret. cbn [trace locals outcome app].
  destruct (generateFollowups env (messagesForLLM s) APOLOGY
              (effectiveLocation s)); reflexivity.
Qed.

Lemma classifyStep_run (classify : string -> Intent) (s : Locals) :
  classifyStep classify s =
  if JS.truthy (lastUserRaw s)
  then {| trace := [LogIntent (classify (lastUserRaw s))];
          locals := set_intent (classify (lastUserRaw s)) s;
          outcome := Returns tt |}
  else {| trace := []; locals := s; outcome := Returns tt |}.
Proof.
  unfold classifyStep. rewrite bind_read.
  destruct (JS.truthy (lastUserRaw s)); [|reflexivity].
  rewrite bind_assign, bind_read. reflexivity.
Qed.

(** The whole handler, branch by branch. *)
Lemma POSTwith_run (classify : string -> Intent) (env : Collaborators)
    (messages : list Message) (location : option string) :
  POSTwith classify env messages location =
  match orchestratePreamble env messages location with
  | Throws e =>
      after [CallPreamble messages location] (catchBlock env e initialLocals)
  | Returns pre =>
      let s := afterPreamble classify pre in
      let composed :=
        composeMessages env (PreambleResult.effectiveLocation pre)
          (PreambleResult.messagesForLLM pre) in
      if PreambleResult.domainGuarded pre
      then
        {| trace :=
             CallPreamble messages location :: intentLog classify pre;
           locals := s;
           outcome := Returns guardResponse |}
      else
        match completionsCreate env composed with
        | Returns responseStream =>
            {| trace :=
                 (CallPreamble messages location :: intentLog classify pre
                  ++ [CallCompletion composed])%list;
               locals := s;
               outcome :=
                 Returns
                   (StreamingTextResponse responseStream
                      (onFinal env (String.concat "" responseStream) s)) |}
        | Throws e =>
            after (CallPreamble messages location :: intentLog classify pre
                   ++ [CallCompletion composed])%list
              (catchBlock env e s)
        end
  end.
Proof.
  unfold POSTwith. rewrite tryCatch_run. unfold tryBlock.
  rewrite bind_await.
  destruct (orchestratePreamble env messages location) as [pre | e];
    [|reflexivity].
  rewrite !bind_assign, bind_run, classifyStep_run.
  unfold afterPreamble, intentLog.
  norm_run.
  destruct (JS.truthy (PreambleResult.lastUserRaw pre)); norm_run;
    destruct (PreambleResult.domainGuarded pre); norm_run;
    try reflexivity;
    rewrite !bind_read, bind_await; norm_run;
    destruct (completionsCreate env
                (composeMessages env (PreambleResult.effectiveLocation pre)
                   (PreambleResult.messagesForLLM pre)));
    norm_run; try reflexivity.
Qed.

Lemma completionCalls_app (t u : list Event) :
  completionCalls (t ++ u) = (completionCalls t ++ completionCalls u)%list.
Proof.
  induction t as [|ev t IH]; [reflexivity|].
  destruct ev; simpl; rewrite IH; reflexivity.
Qed.

Lemma completionCalls_intentLog (classify : string -> Intent)
    (pre : PreambleResult.t) :
  completionCalls (intentLog classify pre) = [].
Proof. unfold intentLog. destruct (JS.truthy _); reflexivity. Qed.

Lemma POST_locals (env : Collaborators) (messages : list Message)
    (location : option string) (pre : PreambleResult.t) :
  orchestratePreamble env messages location = Returns pre ->
  locals (POST env messages location) = afterPreamble classifyIntent pre.
Proof.
  intros Hpre. unfold POST. rewrite POSTwith_run, Hpre. cbv zeta.
  destruct (PreambleResult.domainGuarded pre); [reflexivity|].
  destruct (completionsCreate env _); [reflexivity|].
  rewrite catchBlock_run.
  destruct (message e =? "LOCATION_REQUIRED")%string; reflexivity.
Qed.

(** ** The guard branch *)

(** C2. When the preamble result has [domainGuarded = true], the handler
    answers with the fixed off-topic text and exactly the three default
    follow-ups, with status 200, and the completion service is not called. *)
Theorem C2_guard_short_circuit (env : Collaborators)
    (messages : list Message) (location : option string)
    (pre : PreambleResult.t) :
  orchestratePreamble env messages location = Returns pre ->
  PreambleResult.domainGuarded pre = true ->
  exists r,
    outcome (POST env messages location) = Returns r /\
    r = NextResponse_json
          {| Json.answer := GUARD_ANSWER;
             Json.followups :=
               [ "Find local apprenticeships";
                 "Explore training programs";
                 "Compare typical salaries (BLS)" ] |} None /\
    status r = 200 /\
    completionCalls (trace (POST env messages location)) = [].
Proof.
  intros Hpre Hguard. unfold POST. rewrite POSTwith_run, Hpre. cbv zeta.
  rewrite Hguard. cbn [outcome trace].
  eexists. split; [reflexivity|]. split; [reflexivity|].
  split; [reflexivity|].
  cbn [completionCalls]. apply completionCalls_intentLog.
Qed.

Lemma C2_guard_witness :
  exists r,
    outcome (POST Sample.guardedEnv [Sample.question] None) = Returns r /\
    Json.answer (match r with
                 | NextResponse_json b _ => b
                 | _ => {| Json.answer := ""; Json.followups := [] |}
                 end) = GUARD_ANSWER /\
    status r = 200.
Proof.
  destruct (C2_guard_short_circuit Sample.guardedEnv [Sample.question] None
              (Sample.preamble "" true) eq_refl eq_refl)
    as [r [H1 [H2 [H3 _]]]].
  exists r. rewrite H2 at 2. split; [exact H1|]. split; [reflexivity|exact H3].
Defined.

(** ** The error branches *)

(** C5. When the preamble throws the location-required condition, the
    handler answers with status 200, the fixed instruction and an empty
    follow-up list. *)
Theorem C5_location_required (env : Collaborators)
    (messages : list Message) (location : option string) (e : ErrorValue) :
  orchestratePreamble env messages location = Throws e ->
  message e = "LOCATION_REQUIRED" ->
  exists r,
    outcome (POST env messages location) = Returns r /\
    r = NextResponse_json
          {| Json.answer := LOCATION_ANSWER; Json.followups := [] |} None /\
    status r = 200.
Proof.
  intros Hpre Hmsg. unfold POST. rewrite POSTwith_run, Hpre, catchBlock_run.
  rewrite Hmsg, String.eqb_refl. cbn [after outcome].
  eexists. repeat split; reflexivity.
Qed.

Lemma C5_location_required_witness :
  exists r,
    outcome (POST (Sample.failingEnv {| message := "LOCATION_REQUIRED" |}
                     (Throws Sample.boom)) [Sample.question] None)
    = Returns r /\
    status r = 200.
Proof.
  destruct (C5_location_required
              (Sample.failingEnv {| message := "LOCATION_REQUIRED" |}
                 (Throws Sample.boom))
              [Sample.question] None {| message := "LOCATION_REQUIRED" |}
              eq_refl eq_refl) as [r [H1 [_ H3]]].
  exists r. split; [exact H1 | exact H3].
Defined.

(** C3, as the claim has it, fails: the follow-up generator is awaited in
    the catch block outside any try, so when it rejects the handler rejects
    with it, and no body, hence no follow-up list, is returned. *)
Lemma C3_counterexample :
  message Sample.boom <> "LOCATION_REQUIRED" /\
  orchestratePreamble (Sample.failingEnv Sample.boom (Throws Sample.boom))
    [Sample.question] None = Throws Sample.boom /\
  outcome (POST (Sample.failingEnv Sample.boom (Throws Sample.boom))
             [Sample.question] None) = Throws Sample.boom /\
  emittedFollowups (POST (Sample.failingEnv Sample.boom (Throws Sample.boom))
                      [Sample.question] None) = [].
Proof.
  split; [discriminate|]. repeat split; reflexivity.
Qed.

(** C3, amended. When the try block throws anything but location-required
    and the follow-up generator resolves, the handler answers with the fixed
    apology and status 500, and the follow-up list is the generator's when
    that is non-empty and the three defaults otherwise; it has at least one
    entry. *)
Theorem C3_generic_error (env : Collaborators) (messages : list Message)
    (location : option string) (e : ErrorValue) (fs : list string) :
  let attempt := tryBlock classifyIntent env messages location initialLocals in
  outcome attempt = Throws e ->
  message e <> "LOCATION_REQUIRED" ->
  generateFollowups env (messagesForLLM (locals attempt)) APOLOGY
    (effectiveLocation (locals attempt)) = Returns fs ->
  exists body,
    outcome (POST env messages location)
    = Returns (NextResponse_json body (Some 500)) /\
    status (NextResponse_json body (Some 500)) = 500 /\
    Json.answer body = APOLOGY /\
    Json.followups body
    = match fs with
      | [] => [ "Find local apprenticeships";
                "Explore training programs";
                "Compare typical salaries (BLS)" ]
      | _ :: _ => fs
      end /\
    1 <= length (Json.followups body).
Proof.
  intros attempt Hthrow Hmsg Hgen.
  unfold POST, POSTwith. rewrite tryCatch_run. fold attempt.
  rewrite Hthrow, catchBlock_run.
  apply String.eqb_neq in Hmsg. rewrite Hmsg, Hgen. cbn [after outcome].
  eexists. split; [reflexivity|]. split; [reflexivity|].
  split; [reflexivity|].
  destruct fs as [|f fs]; cbn [Json.followups length Nat.ltb Nat.leb];
    split; try reflexivity; simpl; lia.
Qed.

Lemma C3_generic_error_witness :
  exists body,
    outcome (POST (Sample.failingEnv Sample.boom (Returns []))
               [Sample.question] None)
    = Returns (NextResponse_json body (Some 500)) /\
    1 <= length (Json.followups body).
Proof.
  destruct (C3_generic_error (Sample.failingEnv Sample.boom (Returns []))
              [Sample.question] None Sample.boom [] eq_refl
              ltac:(discriminate) eq_refl)
    as [body [H1 [_ [_ [_ H5]]]]].
  exists body. split; [exact H1 | exact H5].
Defined.

(** ** The intent classifier *)

Example classify_quiz : classifyIntent "Take a QUIZ with me" = quiz.
Proof. reflexivity. Qed.

Example classify_explain : classifyIntent "How does welding work?" = explain.
Proof. reflexivity. Qed.

Example classify_quiz_first : classifyIntent "Explain the quiz" = quiz.
Proof. reflexivity. Qed.

Example classify_chat : classifyIntent "hello" = chat.
Proof. reflexivity. Qed.

(** C4, as the claim has it, fails in its last clause: a text with none of
    the four phrases the claim names need not be classified [chat], since
    the classifier has four more phrases. *)
Lemma C4_counterexample :
  ~ mentions "assessment" "quiz" /\
  ~ mentions "assessment" "which career" /\
  ~ mentions "assessment" "explain" /\
  ~ mentions "assessment" "how does" /\
  classifyIntent "assessment" = quiz /\
  classifyIntent "assessment" <> chat.
Proof.
  unfold mentions. repeat split; try (vm_compute; discriminate).
Qed.

(** C4, amended. The quiz phrases are "quiz", "assessment", "which career"
    and "help me decide"; the explain phrases are "explain", "difference
    between", "what is the difference" and "how does"; all are looked for in
    the lower-cased text. A text with a quiz phrase is [quiz]; one with an
    explain phrase and no quiz phrase is [explain]; any other text is
    [chat]. In the handler, an empty raw text leaves the intent at its
    default [chat], and a non-empty one is classified. *)
Theorem C4_classifier_rules (text : string) (env : Collaborators)
    (messages : list Message) (location : option string)
    (pre : PreambleResult.t) :
  orchestratePreamble env messages location = Returns pre ->
  let quizPhrase :=
    mentions text "quiz" \/ mentions text "assessment" \/
    mentions text "which career" \/ mentions text "help me decide" in
  let explainPhrase :=
    mentions text "explain" \/ mentions text "difference between" \/
    mentions text "what is the difference" \/ mentions text "how does" in
  (quizPhrase -> classifyIntent text = quiz) /\
  (~ quizPhrase -> explainPhrase -> classifyIntent text = explain) /\
  (~ quizPhrase -> ~ explainPhrase -> classifyIntent text = chat) /\
  (PreambleResult.lastUserRaw pre = "" ->
   intent (locals (POST env messages location)) = chat) /\
  (PreambleResult.lastUserRaw pre <> "" ->
   intent (locals (POST env messages location))
   = classifyIntent (PreambleResult.lastUserRaw pre)).
Proof.
  intros Hpre quizPhrase explainPhrase.
  assert (Q : quizPhrase <->
              JS.includes (JS.toLowerCase text) "quiz"
              || JS.includes (JS.toLowerCase text) "assessment"
              || JS.includes (JS.toLowerCase text) "which career"
              || JS.includes (JS.toLowerCase text) "help me decide" = true).
  { unfold quizPhrase, mentions. rewrite !orb_true_iff. tauto. }
  assert (E : explainPhrase <->
              JS.includes (JS.toLowerCase text) "explain"
              || JS.includes (JS.toLowerCase text) "difference between"
              || JS.includes (JS.toLowerCase text) "what is the difference"
              || JS.includes (JS.toLowerCase text) "how does" = true).
  { unfold explainPhrase, mentions. rewrite !orb_true_iff. tauto. }
  unfold classifyIntent at 1 2 3. cbv zeta.
  destruct (JS.includes (JS.toLowerCase text) "quiz"
            || JS.includes (JS.toLowerCase text) "assessment"
            || JS.includes (JS.toLowerCase text) "which career"
            || JS.includes (JS.toLowerCase text) "help me decide");
    destruct (JS.includes (JS.toLowerCase text) "explain"
              || JS.includes (JS.toLowerCase text) "difference between"
              || JS.includes (JS.toLowerCase text) "what is the difference"
              || JS.includes (JS.toLowerCase text) "how does").
  all: rewrite (POST_locals _ _ _ _ Hpre); unfold afterPreamble; cbn [intent].
  all: repeat split; intros; try reflexivity;
    try (exfalso; intuition congruence).
  all: try (match goal with H : _ = "" |- _ => rewrite H; reflexivity end).
  all: try (destruct (PreambleResult.lastUserRaw pre);
            [congruence | reflexivity]).
Qed.

Lemma C4_classifier_rules_witness :
  classifyIntent "Which career fits me?" = quiz /\
  intent (locals (POST (Sample.env ["ok"]) [Sample.question] None)) = chat.
Proof.
  destruct (C4_classifier_rules "Which career fits me?" (Sample.env ["ok"])
              [Sample.question] None (Sample.preamble "kb" false) eq_refl)
    as [H1 [_ [_ [_ H5]]]].
  split.
  - apply H1. right. right. left. reflexivity.
  - rewrite H5; [reflexivity | discriminate].
Defined.

(** ** The composed message list *)

Lemma composeMessages_shape (env : Collaborators) (loc : option string)
    (msgs : list Message) :
  let base :=
    {| id := "system_prompt"; role := system; content := COACH_SYSTEM env |} in
  (exists l,
     loc = Some l /\ l <> "" /\
     composeMessages env loc msgs
     = base ::
       {| id := "system_location"; role := system;
          content := "User location: " ++ l |} :: msgs) \/
  ((loc = None \/ loc = Some "") /\
   composeMessages env loc msgs = base :: msgs).
Proof.
  unfold composeMessages, systemMessages.
  destruct loc as [[|c l]|]; cbn [JS.truthyOpt JS.truthy JS.interpolate app].
  - right. split; [now right | reflexivity].
  - left. exists (String c l). repeat split. discriminate.
  - right. split; [now left | reflexivity].
Qed.

(** C7. When the handler gets as far as the completion call (the preamble
    resolved and did not guard), the service is called once, with: the base
    system prompt first; then the location message, exactly when
    [effectiveLocation] is present and not empty; then the preamble's
    messages, unchanged and in their order. *)
Theorem C7_composed_messages (env : Collaborators) (messages : list Message)
    (location : option string) (pre : PreambleResult.t) :
  orchestratePreamble env messages location = Returns pre ->
  PreambleResult.domainGuarded pre = false ->
  let base :=
    {| id := "system_prompt"; role := system; content := COACH_SYSTEM env |} in
  let loc := PreambleResult.effectiveLocation pre in
  let history := PreambleResult.messagesForLLM pre in
  exists sent,
    completionCalls (trace (POST env messages location)) = [sent] /\
    ((exists l,
        loc = Some l /\ l <> "" /\
        sent = base ::
               {| id := "system_location"; role := system;
                  content := "User location: " ++ l |} :: history) \/
     ((loc = None \/ loc = Some "") /\ sent = base :: history)) /\
    messagesForLLM (locals (POST env messages location)) = history.
Proof.
  intros Hpre Hguard base loc history.
  exists (composeMessages env loc history). split; [|split].
  - unfold POST. rewrite POSTwith_run, Hpre. cbv zeta. rewrite Hguard.
    fold loc history.
    destruct (completionsCreate env (composeMessages env loc history))
      as [tokens | e]; cbn [trace after completionCalls].
    + rewrite completionCalls_app, completionCalls_intentLog. reflexivity.
    + cbn [app completionCalls].
      rewrite !completionCalls_app, completionCalls_intentLog.
      rewrite catchBlock_run.
      destruct (message e =? "LOCATION_REQUIRED")%string; reflexivity.
  - apply composeMessages_shape.
  - rewrite (POST_locals _ _ _ _ Hpre). reflexivity.
Qed.

Lemma C7_composed_messages_witness :
  completionCalls (trace (POST (Sample.env ["ok"]) [Sample.question] None))
  = [ [ {| id := "system_prompt"; role := system;
           content := "You are a manufacturing career coach." |};
        {| id := "system_location"; role := system;
           content := "User location: Austin, TX" |};
        Sample.question ] ].
Proof.
  destruct (C7_composed_messages (Sample.env ["ok"]) [Sample.question] None
              (Sample.preamble "kb" false) eq_refl eq_refl)
    as [sent [H1 [[[l [Hl [_ H2]]] | [[Hl | Hl] _]] _]]];
    try discriminate Hl.
  rewrite H1, H2. injection Hl as <-. reflexivity.
Defined.

(** ** Follow-up lists *)

Lemma emittedFollowups_after (t : list Event) (r : Run Response) :
  emittedFollowups (after t r) = emittedFollowups r.
Proof. reflexivity. Qed.

Lemma defaultFollowups_length : length defaultFollowups = 3.
Proof. reflexivity. Qed.

Section FollowupContract.

Variable env : Collaborators.

(** The contract of the follow-up generator: up to three strings. *)
Hypothesis upToThree :
  forall msgs answer loc fs,
    generateFollowups env msgs answer loc = Returns fs -> length fs <= 3.

Lemma catchBlock_followups (e : ErrorValue) (s : Locals) :
  Forall (fun fs => length fs <= 3) (emittedFollowups (catchBlock env e s)).
Proof.
  rewrite catchBlock_run.
  destruct (message e =? "LOCATION_REQUIRED")%string.
  - repeat constructor.
  - unfold emittedFollowups. cbn [outcome].
    destruct (generateFollowups env (messagesForLLM s) APOLOGY
                (effectiveLocation s)) as [fs | e'] eqn:G; [|constructor].
    cbn [apologyResponse Json.followups]. constructor; [|constructor].
    destruct (0 <? length fs)%nat.
    + exact (upToThree _ _ _ _ G).
    + rewrite defaultFollowups_length. lia.
Qed.

Lemma onFinal_followups (completion : string) (s : Locals) :
  Forall (fun fs => length fs <= 3)
    (map followups (dataAppended (trace (onFinal env completion s)))).
Proof.
  rewrite dataAppended_onFinal.
  destruct (generateFollowups env (finalMessages env completion s)
              (finalAnswerWithSteps env completion s) (effectiveLocation s))
    as [fs | e'] eqn:G; [|constructor].
  constructor; [|constructor]. exact (upToThree _ _ _ _ G).
Qed.

Lemma POST_followups (messages : list Message) (location : option string) :
  Forall (fun fs => length fs <= 3)
    (emittedFollowups (POST env messages location)).
Proof.
  unfold POST. rewrite POSTwith_run.
  destruct (orchestratePreamble env messages location) as [pre | e].
  - cbv zeta. destruct (PreambleResult.domainGuarded pre).
    + unfold emittedFollowups. cbn [outcome guardResponse Json.followups].
      constructor; [|constructor]. rewrite defaultFollowups_length. lia.
    + destruct (completionsCreate env _) as [tokens | e].
      * unfold emittedFollowups. cbn [outcome]. apply onFinal_followups.
      * rewrite emittedFollowups_after. apply catchBlock_followups.
  - rewrite emittedFollowups_after. apply catchBlock_followups.
Qed.

End FollowupContract.

(** C8. If the follow-up generator returns at most three strings, every
    follow-up list the handler hands out has at most three: in the success
    payload, in the guard answer, in the location-required answer and in the
    generic-error answer. *)
Theorem C8_followups_at_most_three (env : Collaborators)
    (messages : list Message) (location : option string) :
  (forall msgs answer loc fs,
     generateFollowups env msgs answer loc = Returns fs -> length fs <= 3) ->
  Forall (fun fs => length fs <= 3)
    (emittedFollowups (POST env messages location)).
Proof.
  intros contract. now apply POST_followups.
Qed.

Lemma C8_followups_at_most_three_witness :
  emittedFollowups (POST (Sample.env ["ok"]) [Sample.question] None)
  = [ ["Find CNC programs near me"; "What does it pay?"] ] /\
  Forall (fun fs => length fs <= 3)
    (emittedFollowups (POST (Sample.env ["ok"]) [Sample.question] None)).
Proof.
  split; [reflexivity|].
  apply (C8_followups_at_most_three (Sample.env ["ok"]) [Sample.question]
           None).
  intros msgs answer loc fs H. injection H as <-. simpl. lia.
Defined.

(** ** The intent has no influence *)

Lemma withoutIntentLog_app (t u : list Event) :
  withoutIntentLog (t ++ u) = (withoutIntentLog t ++ withoutIntentLog u)%list.
Proof. apply filter_app. Qed.

Lemma withoutIntentLog_intentLog (classify : string -> Intent)
    (pre : PreambleResult.t) :
  withoutIntentLog (intentLog classify pre) = [].
Proof. unfold intentLog. destruct (JS.truthy _); reflexivity. Qed.

Lemma sameButIntent_afterPreamble (c1 c2 : string -> Intent)
    (pre : PreambleResult.t) :
  sameButIntent (afterPreamble c1 pre) (afterPreamble c2 pre).
Proof. repeat split. Qed.

Lemma onFinal_sameButIntent (env : Collaborators) (completion : string)
    (s1 s2 : Locals) :
  sameButIntent s1 s2 ->
  trace (onFinal env completion s1) = trace (onFinal env completion s2) /\
  outcome (onFinal env completion s1) = outcome (onFinal env completion s2).
Proof.
  destruct s1 as [m1 r1 l1 g1 i1], s2 as [m2 r2 l2 g2 i2].
  unfold sameButIntent. cbn [messagesForLLM lastUserRaw effectiveLocation
                             internalRAG].
  intros (-> & -> & -> & ->).
  rewrite !onFinal_run, !findFeatured_run.
  unfold finalMessages, finalAnswerWithSteps.
  rewrite !answerWithFeatured_cases.
  cbn [trace outcome messagesForLLM lastUserRaw effectiveLocation
       internalRAG].
  split; reflexivity.
Qed.

Lemma catchBlock_sameButIntent (env : Collaborators) (e : ErrorValue)
    (s1 s2 : Locals) :
  sameButIntent s1 s2 ->
  trace (catchBlock env e s1) = trace (catchBlock env e s2) /\
  outcome (catchBlock env e s1) = outcome (catchBlock env e s2).
Proof.
  intros (Hm & _ & Hl & _). rewrite !catchBlock_run, Hm, Hl.
  destruct (message e =? "LOCATION_REQUIRED")%string; split; reflexivity.
Qed.

(** C9. Whatever classifier is put in the place of [classifyIntent], hence
    whatever intent comes out of it, the handler's run is the same to the
    outside: the same response (status, answer, follow-ups, streamed tokens,
    side-channel payload) and the same calls and error logs. The runs can
    differ only in the diagnostic intent entry and in the variable [intent]
    itself. *)
Theorem C9_intent_has_no_effect (classify : string -> Intent)
    (env : Collaborators) (messages : list Message)
    (location : option string) :
  observeRun (POSTwith classify env messages location)
  = observeRun (POST env messages location) /\
  sameButIntent (locals (POSTwith classify env messages location))
    (locals (POST env messages location)).
Proof.
  unfold POST. rewrite !POSTwith_run.
  destruct (orchestratePreamble env messages location) as [pre | e];
    [|split; [reflexivity | repeat split]].
  cbv zeta. destruct (PreambleResult.domainGuarded pre).
  - split; [|apply sameButIntent_afterPreamble].
    unfold observeRun. cbn [trace outcome].
    change (CallPreamble messages location :: intentLog ?c pre)
      with ([CallPreamble messages location] ++ intentLog c pre)%list.
    rewrite !withoutIntentLog_app, !withoutIntentLog_intentLog. reflexivity.
  - destruct (completionsCreate env _) as [tokens | e].
    + split; [|apply sameButIntent_afterPreamble].
      unfold observeRun. cbn [trace outcome observeOutcome observe status].
      destruct (onFinal_sameButIntent env (String.concat "" tokens) _ _
                  (sameButIntent_afterPreamble classify classifyIntent pre))
        as [-> ->].
      f_equal.
      change (CallPreamble messages location :: ?t)
        with ([CallPreamble messages location] ++ t)%list.
      rewrite !withoutIntentLog_app, !withoutIntentLog_intentLog.
      reflexivity.
    + destruct (catchBlock_sameButIntent env e _ _
                  (sameButIntent_afterPreamble classify classifyIntent pre))
        as [Ht Ho].
      split.
      * unfold observeRun, after. cbn [trace outcome]. rewrite Ht, Ho.
        f_equal.
        change (CallPreamble messages location :: ?t)
          with ([CallPreamble messages location] ++ t)%list.
        rewrite !withoutIntentLog_app, !withoutIntentLog_intentLog.
        reflexivity.
      * cbn [after locals]. rewrite !catchBlock_run.
        destruct (message e =? "LOCATION_REQUIRED")%string;
          apply sameButIntent_afterPreamble.
Qed.

Example intent_quiz_vs_chat :
  observeRun (POSTwith (fun _ => quiz) (Sample.env ["ok"])
                [Sample.question] None)
  = observeRun (POSTwith (fun _ => explain) (Sample.env ["ok"])
                  [Sample.question] None).
Proof. reflexivity. Qed.

(** ** Next-steps normalisation *)

(** The text is cut in two: what is kept, and a tail that is empty (no
    heading found) or starts with the heading. *)
Lemma stripNextSteps_cut (s : string) :
  exists rest,
    s = stripNextSteps s ++ rest /\
    (if regexTest s then matchesHere rest = true else rest = "").
Proof.
  induction s as [|c s [rest [IH1 IH2]]];
    rewrite stripNextSteps_eq, regexTest_eq.
  - exists "". split; reflexivity.
  - destruct (matchesHere (String c s)) eqn:E.
    + exists (String c s). split; [reflexivity | exact E].
    + exists rest. split; [simpl; now rewrite <- IH1 | exact IH2].
Qed.

Lemma payload_finalAnswer (env : Collaborators) (completion : string)
    (s : Locals) (p : FinalPayload) :
  In p (dataAppended (trace (onFinal env completion s))) ->
  finalAnswer p = finalAnswerWithSteps env completion s.
Proof.
  rewrite dataAppended_onFinal.
  destruct (generateFollowups env _ _ _); cbn [In]; [|tauto].
  intros [<- | []]. reflexivity.
Qed.

Lemma heading_count_NEXT_STEPS :
  JS.countOccurrences "**Next Steps**" NEXT_STEPS = 1.
Proof. vm_compute. reflexivity. Qed.

(** C1, as the claim has it, fails: the expression only matches the heading
    written with the colon inside the bold markers, after a blank line. A
    completion that already ends in the canonical block (whose heading has
    no colon) is not stripped, and the final answer then has the block
    twice. *)
Lemma C1_counterexample :
  exists d p,
    outcome (POST (Sample.env [Sample.imitated]) [Sample.question] None)
    = Returns (StreamingTextResponse [Sample.imitated] d) /\
    JS.truthy (internalRAG (locals d)) = true /\
    dataAppended (trace d) = [p] /\
    JS.countOccurrences NEXT_STEPS (finalAnswer p) = 2 /\
    JS.countOccurrences "**Next Steps**" (finalAnswer p) = 2.
Proof.
  eexists. eexists. split; [reflexivity|]. split; [reflexivity|].
  split; [reflexivity|]. split; vm_compute; reflexivity.
Qed.

(** C1, amended. When [internalRAG] is not empty, the final answer is the
    accumulated text (the completion, with the Featured block if any) cut at
    the first match of a blank line followed by the heading
    [**Next Steps:**], in any letter case, followed by the canonical block.
    What is cut off is empty or starts with that heading; no such heading is
    left in the final answer; and when the accumulated text has no
    [**Next Steps**] heading of the canonical form, the final answer has
    exactly one. *)
Theorem C1_next_steps_normalized (env : Collaborators) (completion : string)
    (s : Locals) (p : FinalPayload) :
  JS.truthy (internalRAG s) = true ->
  In p (dataAppended (trace (onFinal env completion s))) ->
  let text := answerWithFeatured env completion s in
  finalAnswer p = stripNextSteps text ++ NEXT_STEPS /\
  (exists rest,
     text = stripNextSteps text ++ rest /\
     (if regexTest text then matchesHere rest = true else rest = "")) /\
  regexTest (finalAnswer p) = false /\
  (JS.includes text "**Next Steps**" = false ->
   JS.countOccurrences "**Next Steps**" (finalAnswer p) = 1).
Proof.
  intros Hrag Hp text.
  assert (E : finalAnswer p = stripNextSteps text ++ NEXT_STEPS).
  { rewrite (payload_finalAnswer _ _ _ _ Hp).
    unfold finalAnswerWithSteps, addNextSteps. now rewrite Hrag. }
  split; [exact E|]. split; [apply stripNextSteps_cut|]. split.
  - rewrite E. apply regexTest_append_NEXT_STEPS, regexTest_stripNextSteps.
  - intros Hnone. rewrite E.
    rewrite countOccurrences_app;
      [| discriminate | vm_compute; reflexivity].
    rewrite heading_count_NEXT_STEPS, countOccurrences_none; [reflexivity|].
    destruct (stripNextSteps_prefix text) as [rest Hrest].
    destruct (JS.includes (stripNextSteps text) "**Next Steps**") eqn:I;
      [|reflexivity].
    apply (includes_app_l _ rest) in I. rewrite <- Hrest in I. congruence.
Qed.

Lemma C1_next_steps_normalized_witness :
  exists p,
    dataAppended
      (trace (onFinal (Sample.env [Sample.withHeading]) Sample.withHeading
                (Sample.locals "kb"))) = [p] /\
    finalAnswer p = "Plan." ++ NEXT_STEPS /\
    regexTest (finalAnswer p) = false.
Proof.
  eexists. split; [reflexivity|].
  destruct (C1_next_steps_normalized (Sample.env [Sample.withHeading])
              Sample.withHeading (Sample.locals "kb")
              {| finalAnswer := "Plan." ++ NEXT_STEPS;
                 followups :=
                   ["Find CNC programs near me"; "What does it pay?"] |}
              eq_refl (or_introl eq_refl)) as [_ [_ [H _]]].
  split; [reflexivity | exact H].
Defined.

(** C10. When [internalRAG] is not empty and the completion itself contains
    the heading [**Next Steps:**] after a blank line (in any letter case),
    the final answer is the completion up to that heading followed by the
    canonical block: everything from the heading on is cut, the Featured
    block appended after it included, whatever the listings were. *)
Theorem C10_strip_drops_featured (env : Collaborators) (completion : string)
    (s : Locals) (p : FinalPayload) :
  JS.truthy (internalRAG s) = true ->
  regexTest completion = true ->
  In p (dataAppended (trace (onFinal env completion s))) ->
  finalAnswer p = stripNextSteps completion ++ NEXT_STEPS /\
  (exists rest,
     completion = stripNextSteps completion ++ rest /\
     matchesHere rest = true) /\
  stripNextSteps (answerWithFeatured env completion s)
  = stripNextSteps completion.
Proof.
  intros Hrag Hmatch Hp.
  assert (E : stripNextSteps (answerWithFeatured env completion s)
              = stripNextSteps completion).
  { destruct (answerWithFeatured_extends env completion s) as [block ->].
    now apply stripNextSteps_app. }
  split; [|split; [|exact E]].
  - rewrite (payload_finalAnswer _ _ _ _ Hp).
    unfold finalAnswerWithSteps, addNextSteps. now rewrite Hrag, E.
  - destruct (stripNextSteps_cut completion) as [rest [H1 H2]].
    rewrite Hmatch in H2. now exists rest.
Qed.

Lemma C10_strip_drops_featured_witness :
  JS.includes Sample.withHeading NEXT_STEPS_RE = true /\
  answerWithFeatured (Sample.env [Sample.withHeading]) Sample.withHeading
    (Sample.locals "kb")
  = Sample.withHeading ++
    featuredBlock (Some "Austin, TX") [Sample.listing] /\
  exists p,
    dataAppended
      (trace (onFinal (Sample.env [Sample.withHeading]) Sample.withHeading
                (Sample.locals "kb"))) = [p] /\
    finalAnswer p = stripNextSteps Sample.withHeading ++ NEXT_STEPS.
Proof.
  split; [reflexivity|]. split; [reflexivity|].
  eexists. split; [reflexivity|].
  exact (proj1 (C10_strip_drops_featured (Sample.env [Sample.withHeading])
                  Sample.withHeading (Sample.locals "kb") _
                  eq_refl eq_refl (or_introl eq_refl))).
Defined.

(** ** A failing listing matcher *)

(** C6. When the listing matcher throws, the error is logged and nothing
    else happens to it: the listing step returns the completion unchanged,
    the final answer is the completion after next-steps normalisation alone,
    and the callback goes on to the follow-up generator, whose result alone
    decides whether the payload is emitted. *)
Theorem C6_listing_failure_swallowed (env : Collaborators)
    (completion : string) (s : Locals) (e : ErrorValue) :
  findFeaturedMatching env (lastUserRaw s) (effectiveLocation s) = Throws e ->
  let final := addNextSteps (internalRAG s) completion in
  let history :=
    (messagesForLLM s ++
     [ {| id := "final_answer"; role := assistant; content := final |} ])%list
  in
  findFeatured env completion s
  = {| trace :=
         [ CallFeatured (lastUserRaw s) (effectiveLocation s);
           LogError "Error finding featured items:" e ];
       locals := s;
       outcome := Returns completion |} /\
  finalAnswerWithSteps env completion s = final /\
  onFinal env completion s
  = {| trace :=
         [ CallFeatured (lastUserRaw s) (effectiveLocation s);
           LogError "Error finding featured items:" e;
           CallFollowups history final (effectiveLocation s) ] ++
         match generateFollowups env history final (effectiveLocation s) with
         | Returns fs =>
             [ DataAppend {| finalAnswer := final; followups := fs |};
               DataClose ]
         | Throws _ => []
         end;
       locals := s;
       outcome :=
         match generateFollowups env history final (effectiveLocation s) with
         | Returns _ => Returns tt
         | Throws e' => Throws e'
         end |}.
Proof.
  intros Hthrow final history.
  assert (A : answerWithFeatured env completion s = completion).
  { rewrite answerWithFeatured_cases, Hthrow. reflexivity. }
  assert (F : finalAnswerWithSteps env completion s = final).
  { unfold finalAnswerWithSteps. now rewrite A. }
  split; [|split; [exact F|]].
  - rewrite findFeatured_run, Hthrow, A. reflexivity.
  - rewrite onFinal_run, findFeatured_run, Hthrow.
    unfold finalMessages. rewrite F. fold history. reflexivity.
Qed.

Lemma C6_listing_failure_swallowed_witness :
  findFeaturedMatching (Sample.noListingsEnv ["Learn to weld."])
    (lastUserRaw (Sample.locals "kb")) (effectiveLocation (Sample.locals "kb"))
  = Throws Sample.boom /\
  finalAnswerWithSteps (Sample.noListingsEnv ["Learn to weld."])
    "Learn to weld." (Sample.locals "kb")
  = "Learn to weld." ++ NEXT_STEPS /\
  outcome (onFinal (Sample.noListingsEnv ["Learn to weld."]) "Learn to weld."
             (Sample.locals "kb")) = Returns tt.
Proof.
  split; [reflexivity|].
  destruct (C6_listing_failure_swallowed
              (Sample.noListingsEnv ["Learn to weld."]) "Learn to weld."
              (Sample.locals "kb") Sample.boom eq_refl) as [_ [H2 H3]].
  split; [exact H2 | rewrite H3; reflexivity].
Defined.

(** * Further properties of the route *)

(** ** More on strings *)

Lemma startsWith_refl (s : string) : JS.startsWith s s = true.
Proof.
  unfold JS.startsWith. induction s as [|c s IH]; [reflexivity|].
  simpl. now rewrite Ascii.eqb_refl, IH.
Qed.

Lemma includes_refl (s : string) : JS.includes s s = true.
Proof. apply includes_startsWith, startsWith_refl. Qed.

Lemma includes_app_r (a b p : string) :
  JS.includes b p = true -> JS.includes (a ++ b) p = true.
Proof.
  intros H. induction a as [|c a IH]; [exact H|].
  change (String c a ++ b) with (String c (a ++ b)).
  cbn [JS.includes]. rewrite IH. apply orb_true_r.
Qed.

Lemma includes_middle (a t b p : string) :
  JS.includes t p = true -> JS.includes (a ++ t ++ b) p = true.
Proof. intros H. now apply includes_app_r, includes_app_l. Qed.

Lemma toLowerCase_app (a b : string) :
  JS.toLowerCase (a ++ b) = JS.toLowerCase a ++ JS.toLowerCase b.
Proof. induction a as [|c a IH]; simpl; [reflexivity | now rewrite IH]. Qed.

Lemma lowerChar_idem (c : ascii) : JS.lowerChar (JS.lowerChar c) = JS.lowerChar c.
Proof. destruct c as [[] [] [] [] [] [] [] []]; reflexivity. Qed.

Lemma toLowerCase_idem (s : string) :
  JS.toLowerCase (JS.toLowerCase s) = JS.toLowerCase s.
Proof.
  induction s as [|c s IH]; simpl; [reflexivity|].
  now rewrite lowerChar_idem, IH.
Qed.

Lemma upperChar_lowerChar (c : ascii) :
  JS.upperChar (JS.lowerChar c) = JS.upperChar c.
Proof. destruct c as [[] [] [] [] [] [] [] []]; reflexivity. Qed.

Lemma prefixBy_ignoreCase_toLowerCase (p s : string) :
  JS.prefixBy JS.eqbIgnoreCase p (JS.toLowerCase s)
  = JS.prefixBy JS.eqbIgnoreCase p s.
Proof.
  revert s; induction p as [|a p IH]; intros s; [reflexivity|].
  destruct s as [|b s]; [reflexivity|].
  simpl. unfold JS.eqbIgnoreCase at 1 3.
  now rewrite upperChar_lowerChar, IH.
Qed.

(** ** The intent classifier: letter case and surrounding text *)

Lemma classifyIntent_toLowerCase (text : string) :
  classifyIntent (JS.toLowerCase text) = classifyIntent text.
Proof. unfold classifyIntent. now rewrite toLowerCase_idem. Qed.

Lemma lowerChar_upperChar (c : ascii) :
  JS.lowerChar (JS.upperChar c) = JS.lowerChar c.
Proof. destruct c as [[] [] [] [] [] [] [] []]; reflexivity. Qed.

Lemma eqbIgnoreCase_lowerChar (a b : ascii) :
  JS.eqbIgnoreCase a b = true -> JS.lowerChar a = JS.lowerChar b.
Proof.
  unfold JS.eqbIgnoreCase. rewrite Ascii.eqb_eq. intros H.
  rewrite <- (lowerChar_upperChar a), H. apply lowerChar_upperChar.
Qed.

Lemma toLowerCase_ignoreCase (s t : string) :
  JS.prefixBy JS.eqbIgnoreCase s t = true ->
  JS.prefixBy JS.eqbIgnoreCase t s = true ->
  JS.toLowerCase s = JS.toLowerCase t.
Proof.
  revert t; induction s as [|a s IH]; intros [|b t] H1 H2;
    try discriminate; [reflexivity|].
  simpl in H1, H2 |- *.
  apply andb_true_iff in H1 as [Hab H1].
  apply andb_true_iff in H2 as [_ H2].
  now rewrite (eqbIgnoreCase_lowerChar _ _ Hab), (IH t H1 H2).
Qed.

(** X18. The classifier does not see letter case: two texts that match
    each other character by character up to the case of the letters A-Z
    get the same intent. *)
Theorem classifyIntent_ignores_case (s t : string) :
  JS.prefixBy JS.eqbIgnoreCase s t = true ->
  JS.prefixBy JS.eqbIgnoreCase t s = true ->
  classifyIntent s = classifyIntent t.
Proof.
  intros H1 H2. unfold classifyIntent.
  now rewrite (toLowerCase_ignoreCase s t H1 H2).
Qed.

Lemma classifyIntent_ignores_case_witness :
  classifyIntent "Which CAREER suits me?"
  = classifyIntent "which career SUITS me?".
Proof.
  apply (classifyIntent_ignores_case "Which CAREER suits me?"
           "which career SUITS me?"); reflexivity.
Defined.

Lemma classifyIntent_quiz_iff (text : string) :
  classifyIntent text = quiz <->
  JS.includes (JS.toLowerCase text) "quiz"
  || JS.includes (JS.toLowerCase text) "assessment"
  || JS.includes (JS.toLowerCase text) "which career"
  || JS.includes (JS.toLowerCase text) "help me decide" = true.
Proof.
  unfold classifyIntent. cbv zeta.
  destruct (JS.includes (JS.toLowerCase text) "quiz"
            || JS.includes (JS.toLowerCase text) "assessment"
            || JS.includes (JS.toLowerCase text) "which career"
            || JS.includes (JS.toLowerCase text) "help me decide").
  - tauto.
  - destruct (_ || _ || _ || _); split; discriminate.
Qed.

Lemma classifyIntent_chat_iff (text : string) :
  classifyIntent text = chat <->
  (JS.includes (JS.toLowerCase text) "quiz"
   || JS.includes (JS.toLowerCase text) "assessment"
   || JS.includes (JS.toLowerCase text) "which career"
   || JS.includes (JS.toLowerCase text) "help me decide")
  || (JS.includes (JS.toLowerCase text) "explain"
      || JS.includes (JS.toLowerCase text) "difference between"
      || JS.includes (JS.toLowerCase text) "what is the difference"
      || JS.includes (JS.toLowerCase text) "how does") = false.
Proof.
  unfold classifyIntent. cbv zeta.
  destruct (JS.includes (JS.toLowerCase text) "quiz"
            || JS.includes (JS.toLowerCase text) "assessment"
            || JS.includes (JS.toLowerCase text) "which career"
            || JS.includes (JS.toLowerCase text) "help me decide");
    destruct (JS.includes (JS.toLowerCase text) "explain"
              || JS.includes (JS.toLowerCase text) "difference between"
              || JS.includes (JS.toLowerCase text) "what is the difference"
              || JS.includes (JS.toLowerCase text) "how does");
    cbn [orb]; split; (discriminate || reflexivity).
Qed.

Lemma includes_lower_middle (before text after p : string) :
  JS.includes (JS.toLowerCase text) p = true ->
  JS.includes (JS.toLowerCase (before ++ text ++ after)) p = true.
Proof.
  intros H. rewrite !toLowerCase_app. now apply includes_middle.
Qed.

(** X17. Text put before or after a message never lowers its intent: a
    message classified [quiz] stays [quiz], and a message classified
    [explain] never becomes [chat]. *)
Theorem classifyIntent_embedding (before text after : string) :
  (classifyIntent text = quiz ->
   classifyIntent (before ++ text ++ after) = quiz) /\
  (classifyIntent text = explain ->
   classifyIntent (before ++ text ++ after) <> chat).
Proof.
  split.
  - rewrite !classifyIntent_quiz_iff, !orb_true_iff.
    intros [[[H | H] | H] | H];
      apply (includes_lower_middle before text after) in H; tauto.
  - intros Hex Hchat. apply classifyIntent_chat_iff in Hchat.
    assert (Hnot : classifyIntent text <> chat) by congruence.
    apply Hnot, classifyIntent_chat_iff.
    apply orb_false_iff in Hchat as [Hq He].
    repeat (apply orb_false_iff in Hq as [Hq ?]).
    repeat (apply orb_false_iff in He as [He ?]).
    repeat (apply orb_false_iff; split);
      match goal with
      | |- JS.includes (JS.toLowerCase text) ?p = false =>
          destruct (JS.includes (JS.toLowerCase text) p) eqn:E;
          [ apply (includes_lower_middle before text after) in E; congruence
          | reflexivity ]
      end.
Qed.

Lemma classifyIntent_embedding_witness :
  classifyIntent ("Hi! " ++ "Explain the QUIZ" ++ " please") = quiz /\
  classifyIntent ("So, " ++ "how does it work" ++ "?") <> chat.
Proof.
  split.
  - apply (proj1 (classifyIntent_embedding "Hi! " "Explain the QUIZ" " please")).
    reflexivity.
  - apply (proj2 (classifyIntent_embedding "So, " "how does it work" "?")).
    reflexivity.
Defined.

(** ** More on the next-steps expression *)

Lemma stripNextSteps_no_match (s : string) :
  regexTest s = false -> stripNextSteps s = s.
Proof.
  induction s as [|c s IH]; rewrite regexTest_eq, stripNextSteps_eq;
    intros H; apply orb_false_iff in H as [H1 H2]; rewrite H1.
  - reflexivity.
  - now rewrite (IH H2).
Qed.

Lemma stripNextSteps_length (s : string) :
  String.length (stripNextSteps s) <= String.length s.
Proof.
  destruct (stripNextSteps_prefix s) as [rest H].
  rewrite H at 2. rewrite length_append. lia.
Qed.

(** X4. Stripping leaves a text as it is exactly when the expression has no
    match in it; stripping twice is stripping once; and the result is never
    longer than the text. *)
Theorem stripNextSteps_fixpoint (s : string) :
  (stripNextSteps s = s <-> regexTest s = false) /\
  stripNextSteps (stripNextSteps s) = stripNextSteps s /\
  String.length (stripNextSteps s) <= String.length s.
Proof.
  split; [split|split].
  - intros H. rewrite <- H. apply regexTest_stripNextSteps.
  - apply stripNextSteps_no_match.
  - apply stripNextSteps_no_match, regexTest_stripNextSteps.
  - apply stripNextSteps_length.
Qed.

Lemma matchesHere_toLowerCase (s : string) :
  matchesHere (JS.toLowerCase s) = matchesHere s.
Proof. apply prefixBy_ignoreCase_toLowerCase. Qed.

(** X5. The expression ignores letter case: the cut falls at the same place
    in a text and in its lower-cased form. *)
Theorem stripNextSteps_ignores_case (s : string) :
  stripNextSteps (JS.toLowerCase s) = JS.toLowerCase (stripNextSteps s) /\
  regexTest (JS.toLowerCase s) = regexTest s.
Proof.
  induction s as [|c s [IH1 IH2]]; [split; reflexivity|].
  rewrite (stripNextSteps_eq (String c s)), (regexTest_eq (String c s)).
  rewrite stripNextSteps_eq, regexTest_eq, matchesHere_toLowerCase.
  cbn [JS.toLowerCase]. rewrite IH1, IH2.
  destruct (matchesHere (String c s)); split; reflexivity.
Qed.

(** X6. The normalisation does not recognise its own block: applied to its
    own output it strips nothing and appends the canonical block again. *)
Theorem addNextSteps_twice (internalRAG text : string) :
  JS.truthy internalRAG = true ->
  addNextSteps internalRAG (addNextSteps internalRAG text)
  = addNextSteps internalRAG text ++ NEXT_STEPS.
Proof.
  intros H. unfold addNextSteps. rewrite H.
  rewrite (stripNextSteps_no_match (stripNextSteps text ++ NEXT_STEPS));
    [reflexivity|].
  apply regexTest_append_NEXT_STEPS, regexTest_stripNextSteps.
Qed.

Lemma addNextSteps_twice_witness :
  addNextSteps "kb" (addNextSteps "kb" Sample.withHeading)
  = "Plan." ++ NEXT_STEPS ++ NEXT_STEPS.
Proof.
  rewrite (addNextSteps_twice "kb" Sample.withHeading eq_refl).
  vm_compute. reflexivity.
Defined.

(** ** The Featured block *)

Lemma includes_join (sep x : string) (l : list string) :
  In x l -> JS.includes (JS.join sep l) x = true.
Proof.
  unfold JS.join. induction l as [|y l IH]; [intros []|].
  intros [-> | H].
  - destruct l as [|z l]; cbn [String.concat].
    + apply includes_refl.
    + apply includes_app_l, includes_refl.
  - destruct l as [|z l]; [destruct H|].
    cbn [String.concat]. apply includes_app_r, includes_app_r, IH, H.
Qed.

Lemma featuredBlock_includes (loc : option string)
    (featured : list FeaturedListing) (f : FeaturedListing) :
  In f featured ->
  JS.includes (featuredBlock loc featured) (featuredLine f) = true.
Proof.
  intros H. unfold featuredBlock. cbv zeta.
  repeat apply includes_app_r.
  apply includes_join, in_map, H.
Qed.

(** X2. The Featured block opens, after a blank line, with the heading
    [**Featured near L:**] when the location [L] is present and not empty,
    and with [**Featured:**] otherwise, and it holds the bullet of every
    listing: title in bold, a dash, the organisation, the location in
    parentheses. *)
Theorem featuredBlock_contents (loc : option string)
    (featured : list FeaturedListing) :
  (forall l, loc = Some l -> l <> "" ->
     JS.startsWith (featuredBlock loc featured)
       (JS.nl ++ JS.nl ++ "**Featured near " ++ l ++ ":**" ++ JS.nl) = true) /\
  (loc = None \/ loc = Some "" ->
     JS.startsWith (featuredBlock loc featured)
       (JS.nl ++ JS.nl ++ "**Featured:**" ++ JS.nl) = true) /\
  (forall f, In f featured ->
     JS.includes (featuredBlock loc featured)
       ("- **" ++ title f ++ "** — " ++ org f ++ " (" ++ location f ++ ")")
     = true).
Proof.
  split; [|split].
  - intros l -> Hl. destruct l as [|c l]; [congruence|].
    unfold featuredBlock. cbn [JS.truthyOpt JS.truthy JS.interpolate].
    cbv zeta. unfold JS.startsWith.
    replace (JS.nl ++ JS.nl ++ "**Featured" ++ (" near " ++ String c l)
             ++ ":**" ++ JS.nl
             ++ JS.join JS.nl (map featuredLine featured))
      with ((JS.nl ++ JS.nl ++ "**Featured near " ++ String c l ++ ":**"
             ++ JS.nl) ++ JS.join JS.nl (map featuredLine featured)).
    + apply prefixBy_app_true. apply startsWith_refl.
    + cbn [JS.nl append]. rewrite append_assoc. reflexivity.
  - intros [-> | ->]; reflexivity.
  - intros f H. exact (featuredBlock_includes loc featured f H).
Qed.

Lemma featuredBlock_contents_witness :
  JS.startsWith (featuredBlock (Some "Austin, TX") [Sample.listing])
    (JS.nl ++ JS.nl ++ "**Featured near Austin, TX:**" ++ JS.nl) = true /\
  JS.includes (featuredBlock (Some "Austin, TX") [Sample.listing])
    "- **CNC Operator** — Acme Tooling (Austin, TX)" = true.
Proof.
  destruct (featuredBlock_contents (Some "Austin, TX") [Sample.listing])
    as [H1 [_ H3]].
  split.
  - apply (H1 "Austin, TX" eq_refl). discriminate.
  - apply (H3 Sample.listing). left. reflexivity.
Defined.

(** ** The enrichment callback: answers without internal retrieval *)

(** X1. When [internalRAG] is empty, no next-steps block is added: the final
    answer is the completion followed by the Featured block when the matcher
    returned listings, and the completion itself when it returned none or
    threw. *)
Theorem onFinal_without_rag (env : Collaborators) (completion : string)
    (s : Locals) (p : FinalPayload) :
  JS.truthy (internalRAG s) = false ->
  In p (dataAppended (trace (onFinal env completion s))) ->
  let matched :=
    findFeaturedMatching env (lastUserRaw s) (effectiveLocation s) in
  (exists featured,
     matched = Returns featured /\ featured <> [] /\
     finalAnswer p
     = completion ++ featuredBlock (effectiveLocation s) featured) \/
  ((matched = Returns [] \/ exists e, matched = Throws e) /\
   finalAnswer p = completion).
Proof.
  intros Hrag Hp matched.
  rewrite (payload_finalAnswer _ _ _ _ Hp).
  unfold finalAnswerWithSteps, addNextSteps. rewrite Hrag.
  rewrite answerWithFeatured_cases. fold matched.
  destruct matched as [[|f featured] | e].
  - right. split; [now left | reflexivity].
  - left. exists (f :: featured). repeat split. discriminate.
  - right. split; [right; now exists e | reflexivity].
Qed.

Lemma onFinal_without_rag_witness :
  exists p,
    dataAppended
      (trace (onFinal (Sample.env ["Learn to weld."]) "Learn to weld."
                (Sample.locals ""))) = [p] /\
    finalAnswer p
    = "Learn to weld." ++ featuredBlock (Some "Austin, TX") [Sample.listing].
Proof.
  eexists. split; [reflexivity|].
  destruct (onFinal_without_rag (Sample.env ["Learn to weld."])
              "Learn to weld." (Sample.locals "") _ eq_refl
              (or_introl eq_refl))
    as [[featured [H1 [_ H3]]] | [[H | [e H]] _]]; try discriminate H.
  injection H1 as <-. exact H3.
Defined.

(** X3. Every listing the matcher returned has its bullet in the final
    answer, unless the next-steps expression finds a match in the
    accumulated text (in which case the text is cut, see C10). *)
Theorem listings_reach_final_answer (env : Collaborators)
    (completion : string) (s : Locals) (p : FinalPayload)
    (featured : list FeaturedListing) (f : FeaturedListing) :
  findFeaturedMatching env (lastUserRaw s) (effectiveLocation s)
  = Returns featured ->
  In f featured ->
  JS.truthy (internalRAG s) = false \/
  regexTest (completion ++ featuredBlock (effectiveLocation s) featured)
  = false ->
  In p (dataAppended (trace (onFinal env completion s))) ->
  JS.includes (finalAnswer p) (featuredLine f) = true.
Proof.
  intros Hm Hf Hcond Hp.
  rewrite (payload_finalAnswer _ _ _ _ Hp).
  unfold finalAnswerWithSteps, addNextSteps.
  rewrite answerWithFeatured_cases, Hm.
  destruct featured as [|g featured]; [destruct Hf|].
  cbn [length Nat.ltb Nat.leb].
  assert (I : JS.includes
                (completion ++
                 featuredBlock (effectiveLocation s) (g :: featured))
                (featuredLine f) = true)
    by (apply includes_app_r, featuredBlock_includes, Hf).
  destruct (JS.truthy (internalRAG s)); [|exact I].
  destruct Hcond as [Hc | Hc]; [discriminate|].
  rewrite (stripNextSteps_no_match _ Hc). now apply includes_app_l.
Qed.

Lemma listings_reach_final_answer_witness :
  exists p,
    dataAppended
      (trace (onFinal (Sample.env ["Learn to weld."]) "Learn to weld."
                (Sample.locals "kb"))) = [p] /\
    JS.includes (finalAnswer p)
      "- **CNC Operator** — Acme Tooling (Austin, TX)" = true.
Proof.
  eexists. split; [reflexivity|].
  apply (listings_reach_final_answer (Sample.env ["Learn to weld."])
           "Learn to weld." (Sample.locals "kb") _ [Sample.listing]
           Sample.listing eq_refl (or_introl eq_refl)).
  - right. vm_compute. reflexivity.
  - left. reflexivity.
Defined.

(** ** The enrichment callback: calls and side channel *)

Lemma dataEvents_app (t u : list Event) :
  dataEvents (t ++ u) = (dataEvents t ++ dataEvents u)%list.
Proof. apply filter_app. Qed.

Lemma dataEvents_findFeatured (env : Collaborators) (completion : string)
    (s : Locals) :
  dataEvents (trace (findFeatured env completion s)) = [].
Proof.
  rewrite findFeatured_run. cbn [trace].
  destruct (findFeaturedMatching env _ _); reflexivity.
Qed.

(** X8. The side channel of one enrichment run: either the follow-up
    generator resolves, and the run ends by appending exactly one payload
    and closing the channel; or it rejects, and the run rejects with the
    same error having neither appended a payload nor closed the channel. *)
Theorem onFinal_side_channel (env : Collaborators) (completion : string)
    (s : Locals) :
  let r := onFinal env completion s in
  (exists t fs,
     trace r
     = (t ++ [ DataAppend
                 {| finalAnswer := finalAnswerWithSteps env completion s;
                    followups := fs |};
               DataClose ])%list /\
     dataEvents t = [] /\
     outcome r = Returns tt) \/
  (exists e,
     dataEvents (trace r) = [] /\
     outcome r = Throws e /\
     generateFollowups env (finalMessages env completion s)
       (finalAnswerWithSteps env completion s) (effectiveLocation s)
     = Throws e).
Proof.
  cbv zeta. rewrite onFinal_run. cbn [trace outcome].
  destruct (generateFollowups env (finalMessages env completion s)
              (finalAnswerWithSteps env completion s) (effectiveLocation s))
    as [fs | e].
  - left.
    exists (trace (findFeatured env completion s) ++
            [CallFollowups (finalMessages env completion s)
               (finalAnswerWithSteps env completion s)
               (effectiveLocation s)])%list, fs.
    split; [|split; [|reflexivity]].
    + rewrite <- app_assoc. reflexivity.
    + rewrite dataEvents_app, dataEvents_findFeatured. reflexivity.
  - right. exists e. split; [|split; reflexivity].
    rewrite dataEvents_app, dataEvents_findFeatured. reflexivity.
Qed.

(** X9. One enrichment run calls the listing matcher once, first, with the
    raw user text and the location, and then the follow-up generator once,
    with the preamble's messages followed by an assistant message
    [final_answer] whose content is the final answer, and with that same
    final answer as text; it is the text of every payload sent. *)
Theorem onFinal_calls (env : Collaborators) (completion : string)
    (s : Locals) :
  let r := onFinal env completion s in
  let final := finalAnswerWithSteps env completion s in
  (exists t,
     trace r = CallFeatured (lastUserRaw s) (effectiveLocation s) :: t) /\
  featuredCalls (trace r) = [(lastUserRaw s, effectiveLocation s)] /\
  followupCalls (trace r)
  = [ ((messagesForLLM s ++
        [ {| id := "final_answer"; role := assistant; content := final |} ])
       %list,
       final, effectiveLocation s) ] /\
  (forall p, In p (dataAppended (trace r)) -> finalAnswer p = final) /\
  locals r = s.
Proof.
  cbv zeta. split; [|split; [|split; [|split]]].
  - rewrite onFinal_run, findFeatured_run. cbn [trace app].
    eexists. reflexivity.
  - rewrite onFinal_run, findFeatured_run. cbn [trace].
    destruct (findFeaturedMatching env _ _);
      destruct (generateFollowups env _ _ _); reflexivity.
  - rewrite onFinal_run, findFeatured_run. cbn [trace].
    destruct (findFeaturedMatching env _ _);
      destruct (generateFollowups env _ _ _); reflexivity.
  - intros p. apply payload_finalAnswer.
  - rewrite onFinal_run. reflexivity.
Qed.

(** ** The handler: which response, and when *)




(** X11. A JSON answer of the handler is one of three: the guard text with
    the three defaults and no status set; the location instruction with no
    follow-ups and no status set; or the apology with status 500 and at
    least one follow-up. So the status is 500 exactly for the apology. *)
Theorem POST_json_answers (env : Collaborators) (messages : list Message)
    (location : option string) (b : Json.body) (init : option nat) :
  outcome (POST env messages location) = Returns (NextResponse_json b init) ->
  (b = {| Json.answer := GUARD_ANSWER; Json.followups := defaultFollowups |}
   /\ init = None) \/
  (b = {| Json.answer := LOCATION_ANSWER; Json.followups := [] |}
   /\ init = None) \/
  (Json.answer b = APOLOGY /\ init = Some 500 /\
   1 <= length (Json.followups b)).
Proof.
  assert (C : forall e s,
             outcome (catchBlock env e s)
             = Returns (NextResponse_json b init) ->
             (b = {| Json.answer := LOCATION_ANSWER; Json.followups := [] |}
              /\ init = None) \/
             (Json.answer b = APOLOGY /\ init = Some 500 /\
              1 <= length (Json.followups b))).
  { intros e s. rewrite catchBlock_run.
    destruct (message e =? "LOCATION_REQUIRED")%string; cbn [outcome].
    - intros H. injection H as <- <-. left. split; reflexivity.
    - destruct (generateFollowups env _ _ _) as [fs | e0]; [|discriminate].
      intros H. injection H as <- <-. right.
      split; [reflexivity | split; [reflexivity|]].
      cbn [Json.followups].
      destruct fs; cbn [length Nat.ltb Nat.leb]; [|simpl; lia].
      rewrite defaultFollowups_length. lia. }
  unfold POST. rewrite POSTwith_run.
  destruct (orchestratePreamble env messages location) as [pre | e].
  - cbv zeta. destruct (PreambleResult.domainGuarded pre).
    + cbn [outcome]. intros H. injection H as <- <-.
      left. split; reflexivity.
    + destruct (completionsCreate env _) as [tokens | e].
      * cbn [outcome]. discriminate.
      * cbn [after outcome]. intros H. right. exact (C _ _ H).
  - cbn [after outcome]. intros H. right. exact (C _ _ H).
Qed.

Lemma POST_json_answers_witness :
  exists b,
    outcome (POST (Sample.failingEnv Sample.boom (Returns []))
               [Sample.question] None)
    = Returns (NextResponse_json b (Some 500)) /\
    Json.answer b = APOLOGY.
Proof.
  eexists. split; [reflexivity|].
  destruct (POST_json_answers (Sample.failingEnv Sample.boom (Returns []))
              [Sample.question] None _ _ eq_refl)
    as [[_ H] | [[_ H] | [H _]]]; try discriminate H.
  exact H.
Defined.



(** ** The handler: errors of the completion service *)

Lemma followupCalls_app (t u : list Event) :
  followupCalls (t ++ u) = (followupCalls t ++ followupCalls u)%list.
Proof.
  induction t as [|ev t IH]; [reflexivity|].
  destruct ev; simpl; rewrite IH; reflexivity.
Qed.

Lemma followupCalls_intentLog (classify : string -> Intent)
    (pre : PreambleResult.t) :
  followupCalls (intentLog classify pre) = [].
Proof. unfold intentLog. destruct (JS.truthy _); reflexivity. Qed.

(** X13. The [catch] block does not ask where an error came from: when the
    completion service rejects with the message LOCATION_REQUIRED, the
    handler gives the location instruction with status 200 and no
    follow-ups, and does not call the follow-up generator. *)
Theorem completion_location_required (env : Collaborators)
    (messages : list Message) (location : option string)
    (pre : PreambleResult.t) (e : ErrorValue) :
  orchestratePreamble env messages location = Returns pre ->
  PreambleResult.domainGuarded pre = false ->
  completionsCreate env
    (composeMessages env (PreambleResult.effectiveLocation pre)
       (PreambleResult.messagesForLLM pre)) = Throws e ->
  message e = "LOCATION_REQUIRED" ->
  outcome (POST env messages location)
  = Returns (NextResponse_json
               {| Json.answer := LOCATION_ANSWER; Json.followups := [] |}
               None) /\
  followupCalls (trace (POST env messages location)) = [].
Proof.
  intros Hpre Hguard Hc Hmsg. unfold POST.
  rewrite POSTwith_run, Hpre. cbv zeta. rewrite Hguard, Hc, catchBlock_run.
  rewrite Hmsg, String.eqb_refl. cbn [after outcome trace].
  split; [reflexivity|].
  rewrite app_nil_r.
  change (CallPreamble messages location :: ?t)
    with ([CallPreamble messages location] ++ t)%list.
  rewrite !followupCalls_app, followupCalls_intentLog. reflexivity.
Qed.

Lemma completion_location_required_witness :
  outcome (POST (Sample.completionFailingEnv
                   {| message := "LOCATION_REQUIRED" |})
             [Sample.question] None)
  = Returns (NextResponse_json
               {| Json.answer := LOCATION_ANSWER; Json.followups := [] |}
               None).
Proof.
  exact (proj1 (completion_location_required
                  (Sample.completionFailingEnv
                     {| message := "LOCATION_REQUIRED" |})
                  [Sample.question] None (Sample.preamble "kb" false)
                  {| message := "LOCATION_REQUIRED" |}
                  eq_refl eq_refl eq_refl eq_refl)).
Defined.

(** X14. What the error follow-ups are generated from. When the preamble
    itself throws, the variables still have their initial values: the
    generator gets an empty history and no location. When the completion
    call throws, it gets the preamble's messages and location. In both
    cases the text passed is the apology. *)
Theorem error_followups_context (env : Collaborators)
    (messages : list Message) (location : option string) (e : ErrorValue) :
  message e <> "LOCATION_REQUIRED" ->
  (orchestratePreamble env messages location = Throws e ->
   followupCalls (trace (POST env messages location))
   = [([], APOLOGY, None)]) /\
  (forall pre,
     orchestratePreamble env messages location = Returns pre ->
     PreambleResult.domainGuarded pre = false ->
     completionsCreate env
       (composeMessages env (PreambleResult.effectiveLocation pre)
          (PreambleResult.messagesForLLM pre)) = Throws e ->
     followupCalls (trace (POST env messages location))
     = [ (PreambleResult.messagesForLLM pre, APOLOGY,
          PreambleResult.effectiveLocation pre) ]).
Proof.
  intros Hmsg. apply String.eqb_neq in Hmsg. split.
  - intros Hpre. unfold POST. rewrite POSTwith_run, Hpre, catchBlock_run, Hmsg.
    reflexivity.
  - intros pre Hpre Hguard Hc. unfold POST.
    rewrite POSTwith_run, Hpre. cbv zeta.
    rewrite Hguard, Hc, catchBlock_run, Hmsg.
    cbn [after trace].
    change (CallPreamble messages location :: ?t)
      with ([CallPreamble messages location] ++ t)%list.
    rewrite !followupCalls_app, followupCalls_intentLog. reflexivity.
Qed.

Lemma error_followups_context_witness :
  followupCalls
    (trace (POST (Sample.failingEnv Sample.boom (Returns []))
              [Sample.question] None))
  = [([], APOLOGY, None)] /\
  followupCalls
    (trace (POST (Sample.completionFailingEnv Sample.boom)
              [Sample.question] None))
  = [([Sample.question], APOLOGY, Some "Austin, TX")].
Proof.
  split.
  - apply (proj1 (error_followups_context
                    (Sample.failingEnv Sample.boom (Returns []))
                    [Sample.question] None Sample.boom ltac:(discriminate))).
    reflexivity.
  - apply (proj2 (error_followups_context
                    (Sample.completionFailingEnv Sample.boom)
                    [Sample.question] None Sample.boom ltac:(discriminate))
             (Sample.preamble "kb" false)); reflexivity.
Defined.

(** ** The handler: discipline of calls *)




(** ** The earlier listing of the route *)

Lemma POSTlegacy_run (env : Collaborators) (messages : list Message)
    (location : option string) :
  POSTlegacy env messages location =
  match orchestratePreamble env messages location with
  | Throws e =>
      after [CallPreamble messages location] (catchBlock env e initialLocals)
  | Returns pre =>
      let s := afterPreamble (fun _ => chat) pre in
      let composed :=
        composeMessages env (PreambleResult.effectiveLocation pre)
          (PreambleResult.messagesForLLM pre) in
      if PreambleResult.domainGuarded pre
      then
        {| trace := [CallPreamble messages location];
           locals := s;
           outcome := Returns guardResponse |}
      else
        match completionsCreate env composed with
        | Returns responseStream =>
            {| trace :=
                 [CallPreamble messages location; CallCompletion composed];
               locals := s;
               outcome :=
                 Returns
                   (StreamingTextResponse responseStream
                      (onFinal env (String.concat "" responseStream) s)) |}
        | Throws e =>
            after [CallPreamble messages location; CallCompletion composed]
              (catchBlock env e s)
        end
  end.
Proof.
  unfold POSTlegacy. rewrite tryCatch_run. unfold tryBlockLegacy.
  rewrite bind_await.
  destruct (orchestratePreamble env messages location) as [pre | e];
    [|reflexivity].
  rewrite !bind_assign.
  assert (S : set_internalRAG (PreambleResult.internalRAG pre)
                (set_effectiveLocation (PreambleResult.effectiveLocation pre)
                   (set_lastUserRaw (PreambleResult.lastUserRaw pre)
                      (set_messagesForLLM (PreambleResult.messagesForLLM pre)
                         initialLocals)))
              = afterPreamble (fun _ => chat) pre).
  { unfold afterPreamble. destruct (JS.truthy _); reflexivity. }
  rewrite S. cbv zeta.
  destruct (PreambleResult.domainGuarded pre); [reflexivity|].
  rewrite !bind_read, bind_await.
  destruct (completionsCreate env _); reflexivity.
Qed.

(** X16. The earlier listing of the handler, which has no intent step, and
    the current one answer every request alike: same response, same calls,
    same error logs. They differ in the intent log entry and the variable
    [intent] only. *)
Theorem POSTlegacy_same_behaviour (env : Collaborators)
    (messages : list Message) (location : option string) :
  observeRun (POSTlegacy env messages location)
  = observeRun (POST env messages location) /\
  sameButIntent (locals (POSTlegacy env messages location))
    (locals (POST env messages location)).
Proof.
  unfold POST. rewrite POSTlegacy_run, POSTwith_run.
  destruct (orchestratePreamble env messages location) as [pre | e];
    [|split; [reflexivity | repeat split]].
  cbv zeta. destruct (PreambleResult.domainGuarded pre).
  - split; [|apply sameButIntent_afterPreamble].
    unfold observeRun. cbn [trace outcome].
    change (CallPreamble messages location :: intentLog ?c pre)
      with ([CallPreamble messages location] ++ intentLog c pre)%list.
    rewrite !withoutIntentLog_app, !withoutIntentLog_intentLog. reflexivity.
  - destruct (completionsCreate env _) as [tokens | e].
    + split; [|apply sameButIntent_afterPreamble].
      unfold observeRun. cbn [trace outcome observeOutcome observe status].
      destruct (onFinal_sameButIntent env (String.concat "" tokens) _ _
                  (sameButIntent_afterPreamble (fun _ => chat)
                     classifyIntent pre)) as [-> ->].
      f_equal.
      change (CallPreamble messages location :: intentLog ?c pre ++ ?t)
        with ([CallPreamble messages location] ++ intentLog c pre ++ t)%list.
      rewrite !withoutIntentLog_app, !withoutIntentLog_intentLog.
      reflexivity.
    + destruct (catchBlock_sameButIntent env e _ _
                  (sameButIntent_afterPreamble (fun _ => chat)
                     classifyIntent pre)) as [Ht Ho].
      split.
      * unfold observeRun, after. cbn [trace outcome]. rewrite Ht, Ho.
        f_equal.
        change (CallPreamble messages location :: intentLog ?c pre ++ ?t)
          with ([CallPreamble messages location] ++ intentLog c pre ++ t)%list.
        rewrite !withoutIntentLog_app, !withoutIntentLog_intentLog.
        reflexivity.
      * cbn [after locals]. rewrite !catchBlock_run.
        destruct (message e =? "LOCATION_REQUIRED")%string;
          apply sameButIntent_afterPreamble.
Qed.

(** ** Everything after the first heading goes *)

Lemma eqbIgnoreCase_join (a p b : ascii) :
  JS.eqbIgnoreCase a b = true -> JS.eqbIgnoreCase p b = true ->
  JS.eqbIgnoreCase a p = true.
Proof.
  unfold JS.eqbIgnoreCase. rewrite !Ascii.eqb_eq. congruence.
Qed.

(** Two patterns matching at the start of the same text match each other,
    the shorter at the start of the longer. *)
Lemma prefixBy_ignoreCase_join (r p h : string) :
  JS.prefixBy JS.eqbIgnoreCase r h = true ->
  JS.prefixBy JS.eqbIgnoreCase p h = true ->
  String.length r <= String.length p ->
  JS.prefixBy JS.eqbIgnoreCase r p = true.
Proof.
  revert p h; induction r as [|a r IH]; intros p h Hr Hp L; [reflexivity|].
  destruct h as [|b h]; [discriminate|].
  destruct p as [|x p]; [simpl in L; lia|].
  simpl in Hr, Hp, L |- *.
  apply andb_true_iff in Hr as [Hr1 Hr2].
  apply andb_true_iff in Hp as [Hp1 Hp2].
  rewrite (eqbIgnoreCase_join _ _ _ Hr1 Hp1), (IH p h Hr2 Hp2) by lia.
  reflexivity.
Qed.

Lemma tails_length (p r : string) :
  In r (JS.tails p) -> String.length r <= String.length p.
Proof.
  induction p as [|c p IH]; [intros []|].
  cbn [JS.tails In]. intros [<- | H]; [lia|].
  apply IH in H. simpl. lia.
Qed.

(** No proper suffix of the heading pattern starts the pattern again. *)
Lemma NEXT_STEPS_RE_borderless :
  existsb (fun r => JS.prefixBy JS.eqbIgnoreCase r NEXT_STEPS_RE)
    (tl (JS.tails NEXT_STEPS_RE)) = false.
Proof. vm_compute. reflexivity. Qed.

Lemma matchesHere_before_heading (c : ascii) (a h : string) :
  matchesHere h = true ->
  matchesHere (String c (a ++ h)) = matchesHere (String c a).
Proof.
  intros Hh.
  destruct (matchesHere (String c a)) eqn:E.
  - exact (matchesHere_app (String c a) h E).
  - destruct (matchesHere (String c (a ++ h))) eqn:E'; [|reflexivity].
    exfalso. unfold matchesHere in E, E', Hh.
    destruct NEXT_STEPS_RE as [|x p] eqn:P; [discriminate|].
    simpl in E, E'. apply andb_true_iff in E' as [Hx E'].
    rewrite Hx in E. simpl in E.
    destruct (prefixBy_app_inv _ p a h E') as [F | F]; [congruence|].
    apply existsb_exists in F as [r [Hin Hr]].
    assert (B : existsb (fun r => JS.prefixBy JS.eqbIgnoreCase r (String x p))
                  (JS.tails p) = true).
    { apply existsb_exists. exists r. split; [exact Hin|].
      apply (prefixBy_ignoreCase_join r (String x p) h Hr Hh).
      apply tails_length in Hin. simpl. lia. }
    pose proof NEXT_STEPS_RE_borderless as N. rewrite P in N.
    cbn [JS.tails tl] in N. congruence.
Qed.

(** X7. Whatever comes before it, a piece of text that starts with the
    heading (after its blank line, in any letter case) is removed whole:
    stripping the text with that piece appended gives what stripping the
    text alone gives. So of several next-steps sections, none survives from
    the first one on. *)
Theorem stripNextSteps_cuts_at_heading (a h : string) :
  matchesHere h = true ->
  stripNextSteps (a ++ h) = stripNextSteps a.
Proof.
  intros Hh. induction a as [|c a IH].
  - cbn [append]. rewrite (stripNextSteps_eq h), Hh. reflexivity.
  - change (String c a ++ h) with (String c (a ++ h)).
    rewrite (stripNextSteps_eq (String c (a ++ h))),
      (stripNextSteps_eq (String c a)).
    rewrite (matchesHere_before_heading c a h Hh), IH. reflexivity.
Qed.

Lemma stripNextSteps_cuts_at_heading_witness :
  stripNextSteps
    ("Plan." ++
     (JS.nl ++ JS.nl ++ "**NEXT STEPS:**" ++ JS.nl ++ "1. Apply." ++
      JS.nl ++ JS.nl ++ "**Next Steps:**" ++ JS.nl ++ "2. Enrol."))
  = "Plan.".
Proof.
  rewrite (stripNextSteps_cuts_at_heading "Plan."
             (JS.nl ++ JS.nl ++ "**NEXT STEPS:**" ++ JS.nl ++ "1. Apply." ++
              JS.nl ++ JS.nl ++ "**Next Steps:**" ++ JS.nl ++ "2. Enrol.")
             eq_refl).
  reflexivity.
Defined.
